(** * Voice-RAG-Chatbot: the RAG orchestrator, embedded and verified

    A shallow embedding of [src/src/rag_system.py] (class [RAGSystem]) and of
    [handle_query] from [src/app.py].

    The Python methods mutate [self] and talk to collaborators that live
    outside the repository (Chroma, the document loaders, the text splitter,
    the Gemini QA chain, the file system, Streamlit).  They are embedded as
    computations in a state-and-exception monad:

    - the state holds the [RAGSystem] object and a [World] (persisted
      directories, temporary files, the Chroma collections, the Streamlit
      log and the history of collaborator calls);
    - every collaborator call is recorded in the history, and whether it
      fails, and what it returns, is decided by an environment [Env] that
      may depend on the whole history, so a statement proved for every
      [Env] holds however the collaborators behave;
    - [try ... except] blocks are the combinators [try_except],
      [try_except_class] and [try_except_all].

    Modelling conventions:
    - a Python [str] is a Rocq [string]; a character is a code point below
      256, which is all that [lower], [split] and [strip] need for the
      literals the source compares with;
    - an exception value is an instance of a subclass of [Exception];
    - the [st.success], [st.info], [st.warning] and [st.error] calls append
      to the log and do not fail;
    - the truth value of a collaborator object ([self.vectorstore],
      [self.qa_chain]) is [is not None]. *)

From Stdlib Require Import Ascii String.
From stdpp Require Import gmap strings list pretty.

Local Open Scope string_scope.

(** ** Python string operations used by the source *)

Module PyStr.

(** [str.lower] on code points below 256: A-Z and the Latin-1 capitals. *)
Definition lower_char (c : Ascii.ascii) : Ascii.ascii :=
  let n := Ascii.N_of_ascii c in
  if ((65 <=? n) && (n <=? 90))%N then Ascii.ascii_of_N (n + 32)
  else if ((192 <=? n) && (n <=? 222) && negb (n =? 215))%N
       then Ascii.ascii_of_N (n + 32)
  else c.

Fixpoint lower (s : string) : string :=
  match s with
  | EmptyString => EmptyString
  | String c r => String (lower_char c) (lower r)
  end.

(** [s.split(sep)] for a one-character separator: never the empty list. *)
Fixpoint split (sep : Ascii.ascii) (s : string) : list string :=
  match s with
  | EmptyString => [EmptyString]
  | String c r =>
      if Ascii.eqb c sep then EmptyString :: split sep r
      else match split sep r with
           | h :: t => String c h :: t
           | [] => [String c EmptyString]
           end
  end.

(** [xs[-1]] on a list of strings that is known to be non-empty. *)
Definition last_item (xs : list string) : string := List.last xs EmptyString.

(** [str.isspace] on one code point below 256. *)
Definition is_space (c : Ascii.ascii) : bool :=
  let n := Ascii.N_of_ascii c in
  (((9 <=? n) && (n <=? 13)) || ((28 <=? n) && (n <=? 32))
   || (n =? 133) || (n =? 160))%N.

Fixpoint lstrip (s : string) : string :=
  match s with
  | EmptyString => EmptyString
  | String c r => if is_space c then lstrip r else s
  end.

Fixpoint rstrip (s : string) : string :=
  match s with
  | EmptyString => EmptyString
  | String c r =>
      match rstrip r with
      | EmptyString => if is_space c then EmptyString else String c EmptyString
      | r' => String c r'
      end
  end.

(** [s.strip()] *)
Definition strip (s : string) : string := rstrip (lstrip s).

(** "empty or only whitespace" *)
Fixpoint all_space (s : string) : bool :=
  match s with
  | EmptyString => true
  | String c r => is_space c && all_space r
  end.

(** truth value of a [str]: non-empty *)
Definition truthy (s : string) : bool :=
  match s with EmptyString => false | _ => true end.

End PyStr.

(** ** Exceptions *)

Inductive ExnClass :=
  | ValueError | AttributeError | KeyError | PermissionError
  | FileNotFoundError | OSError | RuntimeError.

Record Exn := mkExn { exn_class : ExnClass; exn_str : string }.

#[global] Instance ExnClass_eq_dec : EqDecision ExnClass.
Proof. solve_decision. Defined.

Inductive Result (A : Type) :=
  | Ok (a : A)
  | Raise (e : Exn).
Arguments Ok {A} a.
Arguments Raise {A} e.

(** ** The state-and-exception monad *)

Definition M (S A : Type) : Type := S → Result A * S.

Definition ret {S A} (a : A) : M S A := λ s, (Ok a, s).

Definition bind {S A B} (m : M S A) (k : A → M S B) : M S B :=
  λ s, match m s with
       | (Ok a, s') => k a s'
       | (Raise e, s') => (Raise e, s')
       end.

#[global] Instance M_ret {S} : MRet (M S) := λ A, @ret S A.
#[global] Instance M_bind {S} : MBind (M S) := λ A B k m, @bind S A B m k.

Definition raise {S A} (e : Exn) : M S A := λ s, (Raise e, s).
Definition get {S} : M S S := λ s, (Ok s, s).
Definition modify {S} (f : S → S) : M S unit := λ s, (Ok tt, f s).

(** [try: body  except Exception as e: handler e].  The state reached when
    the exception was raised is the state the handler starts from. *)
Definition try_except {S A} (body : M S A) (handler : Exn → M S A) : M S A :=
  λ s, match body s with
       | (Ok a, s') => (Ok a, s')
       | (Raise e, s') => handler e s'
       end.

(** [except C:] for one class; other exceptions propagate. *)
Definition try_except_class {S A} (body : M S A) (C : ExnClass)
    (handler : Exn → M S A) : M S A :=
  try_except body
    (λ e, if decide (exn_class e = C) then handler e else raise e).

(** a bare [except:] *)
Definition try_except_all {S A} (body : M S A) (handler : M S A) : M S A :=
  try_except body (λ _, handler).

(** A local variable of a method that is assigned inside a [try] block and
    read after it: the frame [L] is carried next to the state, so an
    assignment survives a later exception, as in Python. *)
Definition with_local {S L A} (init : L) (m : M (L * S) A) : M S A :=
  λ s, let '(r, (_, s')) := m (init, s) in (r, s').

Definition lift {S L A} (m : M S A) : M (L * S) A :=
  λ ls, let '(r, s') := m ls.2 in (r, (ls.1, s')).

Definition get_local {S L} : M (L * S) L := λ ls, (Ok ls.1, ls).
Definition set_local {S L} (l : L) : M (L * S) unit := λ ls, (Ok tt, (l, ls.2)).

(** ** Data model *)

(** A LangChain [Document]: text plus a metadata dictionary.  Chunks are
    documents too. *)
Record Document := mkDocument {
  page_content : string;
  metadata : gmap string string
}.

(** [doc.metadata[k] = v] *)
Definition set_metadata (k v : string) (d : Document) : Document :=
  {| page_content := page_content d; metadata := <[k := v]> (metadata d) |}.

(** A Streamlit [UploadedFile]: [.name] and [.getvalue()]. *)
Record UploadedFile := mkUploadedFile {
  name : string;
  getvalue : string
}.

Inductive Loader := PyPDFLoader | TextLoader | UnstructuredWordDocumentLoader.

(** What [qa_chain.invoke] returns: a dictionary with key ["result"] and,
    possibly, key ["source_documents"]. *)
Record Response := mkResponse {
  result : string;
  source_documents : option (list Document)
}.

(** The dictionary [query_knowledge_base] returns. *)
Record QueryResult := mkQueryResult {
  answer : string;
  qr_source_documents : list Document
}.

(** The dictionary [get_knowledge_base_stats] returns. *)
Record Stats := mkStats {
  total_documents : nat;
  sources : list string
}.

(** A Chroma collection, seen through a store handle. *)
Inductive Collection :=
  | Live (docs : list Document)
  | Deleted.

Inductive Level := Success | Info | Warning | Error.

#[global] Instance Level_eq_dec : EqDecision Level.
Proof. solve_decision. Defined.

(** Calls of collaborators, as recorded in the history (newest first). *)
Inductive Call :=
  | call_genai_configure (api_key : string)
  | call_HuggingFaceEmbeddings
  | call_shutil_rmtree (path : string)
  | call_Chroma (path : string)
  | call_ChatGoogleGenerativeAI
  | call_RetrievalQA_from_chain_type (store : nat)
  | call_NamedTemporaryFile (suffix : string)
  | call_loader_load (l : Loader) (path : string)
  | call_split_documents (docs : list Document)
  | call_add_documents (store : nat) (texts : list Document)
  | call_os_unlink (path : string)
  | call_client_reset (store : nat)
  | call_collection_count (store : nat)
  | call_qa_chain_invoke (store : nat) (question : string)
  | call_speak_text (text : string) (use_online : bool).

(** The calls that reach the vector index, the embedding provider and the
    answer generator. *)
Definition touches_index (c : Call) : bool :=
  match c with
  | call_add_documents _ _ | call_client_reset _ | call_collection_count _
  | call_qa_chain_invoke _ _ | call_Chroma _ | call_shutil_rmtree _ => true
  | _ => false
  end.

Definition invokes_embedder (c : Call) : bool :=
  match c with
  | call_add_documents _ _ | call_qa_chain_invoke _ _ => true
  | _ => false
  end.

Definition invokes_generator (c : Call) : bool :=
  match c with
  | call_qa_chain_invoke _ _ => true
  | _ => false
  end.

(** The world outside the object. *)
Record World := mkWorld {
  calls : list Call;                (* history, newest first *)
  dirs : gmap string nat;           (* persist directory |-> its collection *)
  files : gmap string string;       (* temporary files: path |-> bytes *)
  heap : gmap nat Collection;       (* store handle |-> collection *)
  log : list (Level * string)       (* Streamlit messages, newest first *)
}.

(** The environment: how the collaborators answer, given the history of
    calls made before. [None] and [inr] are success. *)
Record Env := mkEnv {
  genai_configure_exn : list Call → string → option Exn;
  HuggingFaceEmbeddings_exn : list Call → option Exn;
  shutil_rmtree_exn : list Call → string → option Exn;
  Chroma_exn : list Call → string → option Exn;
  ChatGoogleGenerativeAI_exn : list Call → option Exn;
  RetrievalQA_exn : list Call → option Exn;
  NamedTemporaryFile_out : list Call → string → string → Exn + string;
  loader_load_out : list Call → Loader → string → option string → Exn + list Document;
  split_documents_out : list Call → list Document → Exn + list Document;
  add_documents_exn : list Call → list Document → option Exn;
  os_unlink_exn : list Call → string → option Exn;
  client_reset_exn : list Call → option Exn;
  qa_chain_invoke_out : list Call → option Collection → string → Exn + Response;
  speak_text_exn : list Call → string → bool → option Exn
}.

(** The fields of a [RAGSystem] object. *)
Record RAGSystem := mkRAGSystem {
  google_api_key : string;
  persist_directory : string;
  embeddings : bool;                (* [False] stands for [None] *)
  vectorstore : option nat;         (* handle of the Chroma store *)
  qa_chain : option nat;            (* the store its retriever is bound to *)
  documents : list Document
}.

Record State := mkState {
  self : RAGSystem;
  world : World
}.

(** Field updates. *)
Definition set_embeddings (b : bool) (r : RAGSystem) : RAGSystem :=
  mkRAGSystem (google_api_key r) (persist_directory r) b (vectorstore r)
    (qa_chain r) (documents r).
Definition set_vectorstore (v : option nat) (r : RAGSystem) : RAGSystem :=
  mkRAGSystem (google_api_key r) (persist_directory r) (embeddings r) v
    (qa_chain r) (documents r).
Definition set_qa_chain (q : option nat) (r : RAGSystem) : RAGSystem :=
  mkRAGSystem (google_api_key r) (persist_directory r) (embeddings r)
    (vectorstore r) q (documents r).
Definition set_documents (d : list Document) (r : RAGSystem) : RAGSystem :=
  mkRAGSystem (google_api_key r) (persist_directory r) (embeddings r)
    (vectorstore r) (qa_chain r) d.

Definition set_calls (c : list Call) (w : World) : World :=
  mkWorld c (dirs w) (files w) (heap w) (log w).
Definition set_dirs (d : gmap string nat) (w : World) : World :=
  mkWorld (calls w) d (files w) (heap w) (log w).
Definition set_files (f : gmap string string) (w : World) : World :=
  mkWorld (calls w) (dirs w) f (heap w) (log w).
Definition set_heap (h : gmap nat Collection) (w : World) : World :=
  mkWorld (calls w) (dirs w) (files w) h (log w).
Definition set_log (l : list (Level * string)) (w : World) : World :=
  mkWorld (calls w) (dirs w) (files w) (heap w) l.

Definition on_self (f : RAGSystem → RAGSystem) (s : State) : State :=
  mkState (f (self s)) (world s).
Definition on_world (f : World → World) (s : State) : State :=
  mkState (self s) (f (world s)).

(** States that contain a world. *)
Class HasWorld (S : Type) := {
  get_world : S → World;
  put_world : World → S → S
}.
#[global] Hint Mode HasWorld ! : typeclass_instances.

#[global] Instance World_HasWorld : HasWorld World :=
  {| get_world := id; put_world := λ w _, w |}.
#[global] Instance State_HasWorld : HasWorld State :=
  {| get_world := world; put_world := λ w s, mkState (self s) w |}.
#[global] Instance frame_HasWorld {L S} `{HasWorld S} : HasWorld (L * S) :=
  {| get_world := λ ls, get_world ls.2;
     put_world := λ w ls, (ls.1, put_world w ls.2) |}.

Definition in_world {S} `{HasWorld S} {A} (m : M World A) : M S A :=
  λ s, let '(r, w) := m (get_world s) in (r, put_world w s).

(** ** Streamlit messages *)

Definition st {S} `{HasWorld S} (lvl : Level) (msg : string) : M S unit :=
  in_world (modify (λ w, set_log ((lvl, msg) :: log w) w)).

Definition st_success {S} `{HasWorld S} := st (S:=S) Success.
Definition st_info {S} `{HasWorld S} := st (S:=S) Info.
Definition st_warning {S} `{HasWorld S} := st (S:=S) Warning.
Definition st_error {S} `{HasWorld S} := st (S:=S) Error.

(** ** Collaborators *)

Section Collaborators.
Variable env : Env.

(** A call that may fail: it is recorded, then the environment, shown the
    history before the call, decides. *)
Definition extern (c : Call) (exn : list Call → option Exn) : M World unit :=
  λ w, let w' := set_calls (c :: calls w) w in
       match exn (calls w) with
       | Some e => (Raise e, w')
       | None => (Ok tt, w')
       end.

Definition extern_out {A} (c : Call) (out : list Call → Exn + A) : M World A :=
  λ w, let w' := set_calls (c :: calls w) w in
       match out (calls w) with
       | inl e => (Raise e, w')
       | inr a => (Ok a, w')
       end.

(** [os.path.exists(path)] *)
Definition os_path_exists (path : string) : M World bool :=
  w ← get; mret (bool_decide (is_Some (dirs w !! path))).

(** [shutil.rmtree(path)]: when it succeeds the directory is gone; stores
    that were opened on it keep their collection. *)
Definition shutil_rmtree (path : string) : M World unit :=
  extern (call_shutil_rmtree path) (λ h, shutil_rmtree_exn env h path);;
  modify (λ w, set_dirs (delete path (dirs w)) w).

(** [Chroma(persist_directory=path, embedding_function=...)]: opens the
    collection persisted at [path], or creates the directory with a new,
    empty collection. *)
Definition Chroma (path : string) : M World nat :=
  extern (call_Chroma path) (λ h, Chroma_exn env h path);;
  w ← get;
  match dirs w !! path with
  | Some h => mret h
  | None =>
      let h := fresh (dom (heap w) : gset nat) in
      modify (λ w, set_dirs (<[path := h]> (dirs w))
                     (set_heap (<[h := Live []]> (heap w)) w));;
      mret h
  end.

(** [store._client.reset()]: deletes the collection. *)
Definition client_reset (h : nat) : M World unit :=
  extern (call_client_reset h) (client_reset_exn env);;
  modify (λ w, set_heap (<[h := Deleted]> (heap w)) w).

(** [store._collection.count()] *)
Definition collection_count (h : nat) : M World nat :=
  extern (call_collection_count h) (λ _, None);;
  w ← get;
  match heap w !! h with
  | Some (Live docs) => mret (length docs)
  | _ => raise (mkExn RuntimeError "Collection does not exist")
  end.

(** [store.add_documents(texts)]: embeds and appends. *)
Definition add_documents (h : nat) (texts : list Document) : M World unit :=
  extern (call_add_documents h texts) (λ c, add_documents_exn env c texts);;
  w ← get;
  match heap w !! h with
  | Some (Live docs) =>
      modify (λ w, set_heap (<[h := Live (docs ++ texts)]> (heap w)) w)
  | _ => raise (mkExn RuntimeError "Collection does not exist")
  end.

(** [qa_chain.invoke({"query": question})]: the chain embeds the question,
    retrieves from the store its retriever was built on and generates. *)
Definition qa_chain_invoke (h : nat) (question : string) : M World Response :=
  w ← get;
  extern_out (call_qa_chain_invoke h question)
    (λ c, qa_chain_invoke_out env c (heap w !! h) question).

(** [with tempfile.NamedTemporaryFile(delete=False, suffix=suffix) as f:
       f.write(data); path = f.name] *)
Definition NamedTemporaryFile (suffix data : string) : M World string :=
  path ← extern_out (call_NamedTemporaryFile suffix)
            (λ c, NamedTemporaryFile_out env c suffix data);
  modify (λ w, set_files (<[path := data]> (files w)) w);;
  mret path.

(** [loader.load()] for the loader built on [path]. *)
Definition loader_load (l : Loader) (path : string) : M World (list Document) :=
  w ← get;
  extern_out (call_loader_load l path)
    (λ c, loader_load_out env c l path (files w !! path)).

(** [text_splitter.split_documents(docs)] with chunk_size=1000,
    chunk_overlap=200. *)
Definition split_documents (docs : list Document) : M World (list Document) :=
  extern_out (call_split_documents docs) (λ c, split_documents_out env c docs).

(** [os.unlink(path)] *)
Definition os_unlink (path : string) : M World unit :=
  extern (call_os_unlink path) (λ c, os_unlink_exn env c path);;
  modify (λ w, set_files (delete path (files w)) w).

End Collaborators.

(** ** class RAGSystem *)

Section Methods.
Variable env : Env.

Definition setup_embeddings : M State unit :=
  try_except
    (in_world (extern call_HuggingFaceEmbeddings (HuggingFaceEmbeddings_exn env));;
     modify (on_self (set_embeddings true));;
     st_success "✅ Embeddings model loaded successfully")
    (λ e, st_error ("❌ Error loading embeddings: " +:+ exn_str e);;
          raise e).

(** "Always create a fresh vectorstore without loading existing data" *)
Definition setup_fresh_vectorstore : M State unit :=
  try_except
    (s ← get;
     present ← in_world (os_path_exists (persist_directory (self s)));
     (if present : bool
      then in_world (shutil_rmtree env (persist_directory (self s)))
      else mret tt);;
     h ← in_world (Chroma env (persist_directory (self s)));
     modify (on_self (set_vectorstore (Some h)));;
     st_info "🆕 Created fresh knowledge base")
    (λ e, st_error ("❌ Error setting up fresh vectorstore: " +:+ exn_str e);;
          raise e).

Definition NoneType_has_no_attribute (attr : string) : Exn :=
  mkExn AttributeError
    ("'NoneType' object has no attribute '" +:+ attr +:+ "'").

Definition setup_qa_chain : M State unit :=
  try_except
    (in_world (extern call_ChatGoogleGenerativeAI (ChatGoogleGenerativeAI_exn env));;
     s ← get;
     match vectorstore (self s) with
     | None => raise (NoneType_has_no_attribute "as_retriever")
     | Some h =>
         in_world (extern (call_RetrievalQA_from_chain_type h) (RetrievalQA_exn env));;
         modify (on_self (set_qa_chain (Some h)));;
         st_success "✅ QA chain initialized successfully with Google Gemini"
     end)
    (λ e, st_error ("❌ Error setting up QA chain: " +:+ exn_str e);;
          raise e).

(** [RAGSystem(google_api_key, persist_directory)]: the new object, or the
    exception the constructor raised. *)
Definition __init__ (api_key : string) (directory : string)
    (w : World) : Result RAGSystem * World :=
  let body : M State unit :=
    in_world (extern (call_genai_configure api_key)
                (λ c, genai_configure_exn env c api_key));;
    setup_embeddings;;
    setup_fresh_vectorstore;;
    setup_qa_chain in
  match body (mkState (mkRAGSystem api_key directory false None None []) w) with
  | (Ok _, s) => (Ok (self s), world s)
  | (Raise e, s) => (Raise e, world s)
  end.

(** The [try] block of [load_document]. *)
Definition load_document_try (file_path file_type : string)
    : M State (list Document) :=
  loader ←
    (if String.eqb (PyStr.lower file_type) "pdf" then mret PyPDFLoader
     else if String.eqb (PyStr.lower file_type) "txt" then mret TextLoader
     else if bool_decide (PyStr.lower file_type ∈ ["docx"; "doc"])
          then mret UnstructuredWordDocumentLoader
     else raise (mkExn ValueError ("Unsupported file type: " +:+ file_type)));
  documents ← in_world (loader_load env loader file_path);
  mret documents.

Definition load_document (file_path file_type : string)
    : M State (list Document) :=
  try_except (load_document_try file_path file_type)
    (λ e, st_error ("❌ Error loading document " +:+ file_path +:+ ": "
                    +:+ exn_str e);;
          mret []).

(** [self.vectorstore.add_documents(texts)] *)
Definition vectorstore_add_documents (texts : list Document) : M State unit :=
  s ← get;
  match vectorstore (self s) with
  | None => raise (NoneType_has_no_attribute "add_documents")
  | Some h => in_world (add_documents env h texts)
  end.

(** [self.documents.extend(texts)] *)
Definition documents_extend (texts : list Document) : M State unit :=
  modify (on_self (λ r, set_documents (documents r ++ texts) r)).

(** the metadata loop: [text.metadata['source'] = name;
    text.metadata['file_type'] = file_extension] *)
Definition add_metadata (source file_type : string)
    (texts : list Document) : list Document :=
  (λ text, set_metadata "file_type" file_type
             (set_metadata "source" source text)) <$> texts.

(** The body of the [for uploaded_file in uploaded_files] loop.  The frame
    is the local [processed_count]. *)
Definition process_file (uploaded_file : UploadedFile) : M (nat * State) unit :=
  try_except
    (temp_file_path ←
       in_world (NamedTemporaryFile env
                   ("." +:+ PyStr.last_item (PyStr.split "."%char (name uploaded_file)))
                   (getvalue uploaded_file));
     let file_extension :=
       PyStr.lower (PyStr.last_item (PyStr.split "."%char (name uploaded_file))) in
     documents ← lift (load_document temp_file_path file_extension);
     match documents with
     | _ :: _ =>
         texts ← in_world (split_documents env documents);
         let texts := add_metadata (name uploaded_file) file_extension texts in
         lift (vectorstore_add_documents texts);;
         lift (documents_extend texts);;
         processed_count ← get_local;
         set_local (processed_count + 1);;
         st_success ("✅ Processed: " +:+ name uploaded_file +:+ " ("
                     +:+ pretty (length texts) +:+ " chunks)")
     | [] => mret tt
     end;;
     in_world (os_unlink env temp_file_path))
    (λ e, st_error ("❌ Error processing " +:+ name uploaded_file +:+ ": "
                    +:+ exn_str e)).

Fixpoint for_uploaded_files (uploaded_files : list UploadedFile)
    : M (nat * State) unit :=
  match uploaded_files with
  | [] => mret tt
  | uploaded_file :: rest =>
      process_file uploaded_file;; for_uploaded_files rest
  end.

Definition process_documents (uploaded_files : list UploadedFile) : M State nat :=
  with_local 0
    (for_uploaded_files uploaded_files;;
     processed_count ← get_local;
     (if (0 <? processed_count)%nat
      then st_success ("🎉 Successfully processed " +:+ pretty processed_count
                       +:+ " documents!")
      else mret tt);;
     mret processed_count).

Definition add_text_document (text_content document_name : string)
    : M State bool :=
  try_except
    (let doc := mkDocument text_content
                  (<["file_type" := "text"]> (<["source" := document_name]> ∅)) in
     texts ← in_world (split_documents env [doc]);
     vectorstore_add_documents texts;;
     documents_extend texts;;
     st_success ("✅ Added text document: " +:+ document_name);;
     mret true)
    (λ e, st_error ("❌ Error adding text document: " +:+ exn_str e);;
          mret false).

(** [self.vectorstore._collection.count()] *)
Definition vectorstore_collection_count : M State nat :=
  s ← get;
  match vectorstore (self s) with
  | None => raise (NoneType_has_no_attribute "_collection")
  | Some h => in_world (collection_count h)
  end.

Definition qa_not_initialized : QueryResult :=
  mkQueryResult
    "❌ QA system not initialized. Please check your Google API key." [].

Definition no_documents : QueryResult :=
  mkQueryResult
    "📚 No documents in knowledge base. Please upload some documents first." [].

Definition error_result (e : Exn) : QueryResult :=
  mkQueryResult ("❌ Error processing your question: " +:+ exn_str e) [].

(** The [try] block of [query_knowledge_base]. *)
Definition query_knowledge_base_try (question : string) : M State QueryResult :=
  s ← get;
  match qa_chain (self s) with
  | None => mret qa_not_initialized
  | Some qa =>
      n ← vectorstore_collection_count;
      if (n =? 0)%nat then mret no_documents
      else
        response ← in_world (qa_chain_invoke env qa question);
        mret (mkQueryResult (result response)
                (default [] (source_documents response)))
  end.

Definition query_knowledge_base (question : string) : M State QueryResult :=
  try_except (query_knowledge_base_try question)
    (λ e, st_error ("❌ Error querying knowledge base: " +:+ exn_str e);;
          mret (error_result e)).

(** the loop that collects [doc.metadata['source']] into a set *)
Definition unique_sources (docs : list Document) : gset string :=
  foldl (λ (acc : gset string) doc,
           match metadata doc !! "source" with
           | Some src => acc ∪ {[src]}
           | None => acc
           end) ∅ docs.

Definition get_knowledge_base_stats : M State Stats :=
  try_except
    (s ← get;
     match vectorstore (self s) with
     | None => mret (mkStats 0 [])
     | Some _ =>
         total_docs ← vectorstore_collection_count;
         s ← get;
         mret (mkStats total_docs (elements (unique_sources (documents (self s)))))
     end)
    (λ e, st_error ("❌ Error getting stats: " +:+ exn_str e);;
          mret (mkStats 0 [])).

(** [time.sleep(1)] *)
Definition time_sleep (seconds : nat) : M State unit := mret tt.

(** A Chroma store always has the attribute [_client], so the test
    [hasattr(self.vectorstore, '_client')] is true whenever it is reached. *)
Definition clear_knowledge_base : M State bool :=
  try_except
    (modify (on_self (set_documents []));;
     s ← get;
     match vectorstore (self s) with
     | Some h =>
         try_except_all
           (in_world (client_reset env h);;
            modify (on_self (set_vectorstore None)))
           (mret tt)
     | None => mret tt
     end;;
     time_sleep 1;;
     try_except_class
       (s ← get;
        present ← in_world (os_path_exists (persist_directory (self s)));
        if present : bool
        then in_world (shutil_rmtree env (persist_directory (self s)));;
             st_success "🗑️ Knowledge base directory cleared"
        else mret tt)
       PermissionError
       (λ _, st_warning "⚠️ Could not delete old files, creating fresh database");;
     setup_fresh_vectorstore;;
     st_success "✅ Knowledge base cleared successfully!";;
     mret true)
    (λ e, st_error ("❌ Error clearing knowledge base: " +:+ exn_str e);;
          try_except_all
            (setup_fresh_vectorstore;;
             st_info "🔄 Created new knowledge base")
            (mret tt);;
          mret false).

End Methods.

(** ** [handle_query] of app.py *)

(** An entry of [st.session_state.messages]. *)
Record Message := mkMessage {
  role : string;
  content : string;
  msg_sources : option (list Document)   (* the "sources" key, if any *)
}.

Record Session := mkSession {
  messages : list Message;                (* oldest first *)
  rag_system : option RAGSystem;
  voice_handler : bool;                   (* [False] stands for [None] *)
  voice_enabled : bool
}.

Record AppState := mkAppState {
  session_state : Session;
  app_world : World
}.

#[global] Instance AppState_HasWorld : HasWorld AppState :=
  {| get_world := app_world;
     put_world := λ w s, mkAppState (session_state s) w |}.

Definition messages_append (m : Message) : M AppState unit :=
  modify (λ s, mkAppState
                 (mkSession (messages (session_state s) ++ [m])
                    (rag_system (session_state s))
                    (voice_handler (session_state s))
                    (voice_enabled (session_state s)))
                 (app_world s)).

(** Run a method of [st.session_state.rag_system]. *)
Definition on_rag_system {A} (r : RAGSystem) (m : M State A) : M AppState A :=
  λ s, let '(res, s') := m (mkState r (app_world s)) in
       (res, mkAppState
               (mkSession (messages (session_state s)) (Some (self s'))
                  (voice_handler (session_state s))
                  (voice_enabled (session_state s)))
               (world s')).

Section App.
Variable env : Env.

Definition handle_query (question tts_method : string) : M AppState unit :=
  if negb (PyStr.truthy (PyStr.strip question))
  then st_warning "⚠️ Please enter a question."
  else
    messages_append (mkMessage "user" question None);;
    s ← get;
    match rag_system (session_state s) with
    | Some r =>
        try_except
          (response ← on_rag_system r (query_knowledge_base env question);
           messages_append (mkMessage "assistant" (answer response)
                              (Some (qr_source_documents response)));;
           if voice_handler (session_state s) && voice_enabled (session_state s)
           then
             let use_online := String.eqb tts_method "Online (Google TTS)" in
             try_except
               (in_world (extern (call_speak_text (answer response) use_online)
                            (λ c, speak_text_exn env c (answer response) use_online)))
               (λ e, st_warning ("⚠️ TTS error: " +:+ exn_str e))
           else mret tt)
          (λ e, st_error ("❌ Error processing query: " +:+ exn_str e);;
                messages_append
                  (mkMessage "assistant"
                     ("Sorry, I encountered an error while processing your question: "
                      +:+ exn_str e)
                     (Some [])))
    | None =>
        st_error "❌ RAG system not initialized. Please provide Google API key."
    end.

End App.

(** ** Observations on runs *)

(** The calls made between world [w] and a later world [w']. *)
Definition calls_since (w w' : World) : list Call :=
  take (length (calls w') - length (calls w)) (calls w').

(** The result of running a computation, and the state it leaves. *)
Definition returned {S A} (m : M S A) (s : S) : Result A := (m s).1.
Definition after {S A} (m : M S A) (s : S) : S := (m s).2.

(** A computation that returns normally from every state. *)
Definition never_raises {S A} (m : M S A) : Prop :=
  ∀ s, ∃ a, returned m s = Ok a.

(** ** Test environments *)

(** Every collaborator works; [reset] is refused, as Chroma does unless
    [allow_reset] is configured.  A loaded file is one document, the
    splitter makes one chunk of each non-empty document. *)
Definition quiet_env : Env :=
  {| genai_configure_exn := λ _ _, None;
     HuggingFaceEmbeddings_exn := λ _, None;
     shutil_rmtree_exn := λ _ _, None;
     Chroma_exn := λ _ _, None;
     ChatGoogleGenerativeAI_exn := λ _, None;
     RetrievalQA_exn := λ _, None;
     NamedTemporaryFile_out := λ c suffix _,
       inr ("/tmp/tmp" +:+ pretty (length c) +:+ suffix);
     loader_load_out := λ _ _ path data,
       match data with
       | Some text => inr [mkDocument text {["source" := path]}]
       | None => inl (mkExn FileNotFoundError path)
       end;
     split_documents_out := λ _ docs,
       inr (filter (λ d, page_content d ≠ "") docs);
     add_documents_exn := λ _ _, None;
     os_unlink_exn := λ _ _, None;
     client_reset_exn := λ _,
       Some (mkExn ValueError "Resetting is not allowed by this configuration");
     qa_chain_invoke_out := λ _ coll q,
       match coll with
       | Some (Live docs) =>
           inr (mkResponse ("Answer to: " +:+ q) (Some (take 3 docs)))
       | _ => inl (mkExn RuntimeError "Collection does not exist")
       end;
     speak_text_exn := λ _ _ _, None |}.

Definition with_qa_chain_invoke_out
    (f : list Call → option Collection → string → Exn + Response)
    (e : Env) : Env :=
  mkEnv (genai_configure_exn e) (HuggingFaceEmbeddings_exn e)
    (shutil_rmtree_exn e) (Chroma_exn e) (ChatGoogleGenerativeAI_exn e)
    (RetrievalQA_exn e) (NamedTemporaryFile_out e) (loader_load_out e)
    (split_documents_out e) (add_documents_exn e) (os_unlink_exn e)
    (client_reset_exn e) f (speak_text_exn e).

Definition with_shutil_rmtree_exn (f : list Call → string → option Exn)
    (e : Env) : Env :=
  mkEnv (genai_configure_exn e) (HuggingFaceEmbeddings_exn e)
    f (Chroma_exn e) (ChatGoogleGenerativeAI_exn e)
    (RetrievalQA_exn e) (NamedTemporaryFile_out e) (loader_load_out e)
    (split_documents_out e) (add_documents_exn e) (os_unlink_exn e)
    (client_reset_exn e) (qa_chain_invoke_out e) (speak_text_exn e).

(** The generation service is down. *)
Definition quota_exceeded : Exn := mkExn RuntimeError "429 quota exceeded".
Definition no_generator_env : Env :=
  with_qa_chain_invoke_out (λ _ _ _, inl quota_exceeded) quiet_env.

(** The persist directory is locked and stays locked (open database files
    on Windows). *)
Definition access_denied : Exn :=
  mkExn PermissionError "[WinError 32] The process cannot access the file".
Definition locked_env : Env :=
  with_shutil_rmtree_exn (λ _ _, Some access_denied) quiet_env.

(** The directory is locked only until the first attempt to delete it has
    failed. *)
Definition is_rmtree (c : Call) : bool :=
  match c with call_shutil_rmtree _ => true | _ => false end.
Definition transient_lock_env : Env :=
  with_shutil_rmtree_exn
    (λ c _, if existsb is_rmtree c then None else Some access_denied)
    quiet_env.

Definition empty_world : World := mkWorld [] ∅ ∅ ∅ [].

(** A world in which a previous session left two chunks on disk. *)
Definition old_chunk (n : nat) : Document :=
  mkDocument ("old chunk " +:+ pretty n) {["source" := "old.txt"]}.
Definition stale_world : World :=
  mkWorld [] {["./chroma_db" := 7]} ∅
    {[7 := Live [old_chunk 1; old_chunk 2]]} [].

(** The state a run reaches, whatever the result. *)
Definition new_RAGSystem (e : Env) (w : World) : State :=
  match __init__ e "key" "./chroma_db" w with
  | (Ok r, w') => mkState r w'
  | (Raise _, w') => mkState (mkRAGSystem "key" "./chroma_db" false None None []) w'
  end.

Definition notes_txt : UploadedFile :=
  mkUploadedFile "notes.txt" "Paris is the capital of France.".
Definition setup_exe : UploadedFile := mkUploadedFile "setup.exe" "MZ".
Definition report_doc : UploadedFile := mkUploadedFile "report.doc" "Quarterly report".

(** A new object after [notes.txt] was uploaded. *)
Definition indexed_notes (e : Env) : State :=
  after (process_documents e [notes_txt]) (new_RAGSystem e empty_world).

(** The application with such an object, no voice. *)
Definition app_with_notes (e : Env) : AppState :=
  mkAppState (mkSession [] (Some (self (indexed_notes e))) false false)
    (world (indexed_notes e)).

(** A new object, and a Word 97 file on disk. *)
Definition report_on_disk : State :=
  on_world (set_files {["/tmp/report.doc" := "Quarterly report"]})
    (new_RAGSystem quiet_env empty_world).

(** The state after a collaborator call was recorded, and after a message
    was logged. *)
Definition recorded (c : Call) (s : State) : State :=
  on_world (λ w, set_calls (c :: calls w) w) s.
Definition logged (lvl : Level) (msg : string) (s : State) : State :=
  on_world (λ w, set_log ((lvl, msg) :: log w) w) s.

(** The chunk [notes.txt] becomes in [quiet_env] on a new object. *)
Definition notes_chunk : Document :=
  set_metadata "file_type" "txt"
    (set_metadata "source" "notes.txt"
       (mkDocument "Paris is the capital of France."
          {["source" := "/tmp/tmp5.txt"]})).

(** ** Sessions: the states a [RAGSystem] object goes through *)

Section Reachable.
Variable env : Env.

(** One call of a public method. *)
Inductive step : State → State → Prop :=
  | step_process_documents files s :
      step s (after (process_documents env files) s)
  | step_add_text_document text doc_name s :
      step s (after (add_text_document env text doc_name) s)
  | step_query_knowledge_base question s :
      step s (after (query_knowledge_base env question) s)
  | step_get_knowledge_base_stats s :
      step s (after get_knowledge_base_stats s)
  | step_clear_knowledge_base s :
      step s (after (clear_knowledge_base env) s).

(** The object was constructed, then used through its methods. *)
Inductive reachable : State → Prop :=
  | reachable_init api_key directory w r w' :
      __init__ env api_key directory w = (Ok r, w') →
      reachable (mkState r w')
  | reachable_step s s' :
      reachable s → step s s' → reachable s'.

(** ** The ingestion pipeline, stated on the collaborators *)

(** The loader for a declared type, if there is one. *)
Definition supported_loader (file_type : string) : option Loader :=
  let t := PyStr.lower file_type in
  if String.eqb t "pdf" then Some PyPDFLoader
  else if String.eqb t "txt" then Some TextLoader
  else if String.eqb t "docx" || String.eqb t "doc"
       then Some UnstructuredWordDocumentLoader
  else None.

Definition file_suffix (f : UploadedFile) : string :=
  "." +:+ PyStr.last_item (PyStr.split "."%char (name f)).
Definition file_extension (f : UploadedFile) : string :=
  PyStr.lower (PyStr.last_item (PyStr.split "."%char (name f))).

(** load, chunk, embed and add: the chunks of file [f] that are indexed
    when it is ingested in state [s], or [None] when one of the steps fails
    or the loader finds no document. *)
Definition file_chunks (f : UploadedFile) (s : State) : option (list Document) :=
  let c0 := calls (world s) in
  match NamedTemporaryFile_out env c0 (file_suffix f) (getvalue f) with
  | inl _ => None
  | inr path =>
      let c1 := call_NamedTemporaryFile (file_suffix f) :: c0 in
      match supported_loader (file_extension f) with
      | None => None
      | Some l =>
          match loader_load_out env c1 l path (Some (getvalue f)) with
          | inl _ | inr [] => None
          | inr docs =>
              let c2 := call_loader_load l path :: c1 in
              match split_documents_out env c2 docs with
              | inl _ => None
              | inr texts =>
                  let texts := add_metadata (name f) (file_extension f) texts in
                  let c3 := call_split_documents docs :: c2 in
                  match vectorstore (self s) with
                  | None => None
                  | Some h =>
                      match add_documents_exn env c3 texts, heap (world s) !! h with
                      | None, Some (Live _) => Some texts
                      | _, _ => None
                      end
                  end
              end
          end
      end
  end.

(** The state in which the loop finds the next file. *)
Definition after_file (f : UploadedFile) (s : State) : State :=
  (after (process_file env f) (0, s)).2.

(** The number of files whose chunks were indexed, each file taken in the
    state its predecessors left. *)
Fixpoint ingested_count (files : list UploadedFile) (s : State) : nat :=
  match files with
  | [] => 0
  | f :: rest =>
      (match file_chunks f s with Some _ => 1 | None => 0 end)
      + ingested_count rest (after_file f s)
  end.

(** The chunks that were indexed, in the order of the files. *)
Fixpoint ingested_chunks (files : list UploadedFile) (s : State)
    : list Document :=
  match files with
  | [] => []
  | f :: rest =>
      default [] (file_chunks f s) ++ ingested_chunks rest (after_file f s)
  end.

(** What ingestion and clearing act on. *)
Definition knowledge_base (s : State)
    : option nat * list Document * gmap nat Collection :=
  (vectorstore (self s), documents (self s), heap (world s)).

End Reachable.

(** A computation that leaves an observation [π] of the state as it was,
    whether it returns or raises. *)
Definition keeps {S A X} (π : S → X) (m : M S A) : Prop :=
  ∀ s, π (after m s) = π s.

(** ** More of class RAGSystem *)

Section MoreMethods.
Variable env : Env.

(** "Initialize or load existing Chroma vectorstore": the method that
    resumes a persisted index.  The constructor does not call it. *)
Definition setup_vectorstore : M State unit :=
  try_except
    (s ← get;
     present ← in_world (os_path_exists (persist_directory (self s)));
     if present : bool
     then
       h ← in_world (Chroma env (persist_directory (self s)));
       modify (on_self (set_vectorstore (Some h)));;
       try_except_all
         (count ← vectorstore_collection_count;
          st_info ("📚 Loaded existing knowledge base with " +:+ pretty count
                   +:+ " documents"))
         (st_info "📚 Loaded existing knowledge base")
     else
       h ← in_world (Chroma env (persist_directory (self s)));
       modify (on_self (set_vectorstore (Some h)));;
       st_info "🆕 Created new knowledge base")
    (λ e, st_error ("❌ Error setting up vectorstore: " +:+ exn_str e);;
          raise e).

(** The document [add_text_document] builds from the text. *)
Definition manual_document (text_content document_name : string) : Document :=
  mkDocument text_content
    (<["file_type" := "text"]> (<["source" := document_name]> ∅)).

(** split, embed and add, stated on the collaborators: the chunks of a
    manual text that are indexed in state [s], or [None] when a step
    fails. *)
Definition text_chunks (text_content document_name : string) (s : State)
    : option (list Document) :=
  let doc := manual_document text_content document_name in
  match split_documents_out env (calls (world s)) [doc] with
  | inl _ => None
  | inr texts =>
      match vectorstore (self s) with
      | None => None
      | Some h =>
          match add_documents_exn env
                  (call_split_documents [doc] :: calls (world s)) texts,
                heap (world s) !! h with
          | None, Some (Live _) => Some texts
          | _, _ => None
          end
      end
  end.

End MoreMethods.

(** A computation after which the state is related to the state before by
    [R], whether it returns or raises. *)
Definition steady {S A} (R : relation S) (m : M S A) : Prop :=
  ∀ s, R s (after m s).

(** No collection disappears: the store handles only grow. *)
Definition handles_grow (s s' : State) : Prop :=
  dom (heap (world s)) ⊆ dom (heap (world s')).

(** The relation on the state, seen from a frame. *)
Definition in_frame {L S} (R : relation S) : relation (L * S) :=
  λ ls ls', R ls.2 ls'.2.

(** A collaborator call that adds collections at most. *)
Definition world_grows {A} (m : M World A) : Prop :=
  ∀ w, dom (heap w) ⊆ dom (heap (after m w)).

Definition is_unlink (c : Call) : bool :=
  match c with call_os_unlink _ => true | _ => false end.

(** The embeddings model is missing while an index is persisted. *)
Definition no_embeddings_env : Env :=
  mkEnv (genai_configure_exn quiet_env)
    (λ _, Some (mkExn OSError "model not found"))
    (shutil_rmtree_exn quiet_env) (Chroma_exn quiet_env)
    (ChatGoogleGenerativeAI_exn quiet_env) (RetrievalQA_exn quiet_env)
    (NamedTemporaryFile_out quiet_env) (loader_load_out quiet_env)
    (split_documents_out quiet_env) (add_documents_exn quiet_env)
    (os_unlink_exn quiet_env) (client_reset_exn quiet_env)
    (qa_chain_invoke_out quiet_env) (speak_text_exn quiet_env).

(** The Gemini chain cannot be built (a key that is refused). *)
Definition no_chain_env : Env :=
  mkEnv (genai_configure_exn quiet_env) (HuggingFaceEmbeddings_exn quiet_env)
    (shutil_rmtree_exn quiet_env) (Chroma_exn quiet_env)
    (λ _, Some (mkExn ValueError "API key not valid"))
    (RetrievalQA_exn quiet_env)
    (NamedTemporaryFile_out quiet_env) (loader_load_out quiet_env)
    (split_documents_out quiet_env) (add_documents_exn quiet_env)
    (os_unlink_exn quiet_env) (client_reset_exn quiet_env)
    (qa_chain_invoke_out quiet_env) (speak_text_exn quiet_env).

(** The text splitter is broken. *)
Definition no_splitter_env : Env :=
  mkEnv (genai_configure_exn quiet_env) (HuggingFaceEmbeddings_exn quiet_env)
    (shutil_rmtree_exn quiet_env) (Chroma_exn quiet_env)
    (ChatGoogleGenerativeAI_exn quiet_env) (RetrievalQA_exn quiet_env)
    (NamedTemporaryFile_out quiet_env) (loader_load_out quiet_env)
    (λ _ _, inl (mkExn RuntimeError "tokenizer not available"))
    (add_documents_exn quiet_env)
    (os_unlink_exn quiet_env) (client_reset_exn quiet_env)
    (qa_chain_invoke_out quiet_env) (speak_text_exn quiet_env).

(** ** More of app.py *)

(** The session with the key [processed_files], which
    [process_uploaded_files] adds; [None] while the key is missing. *)
Record UploadState := mkUploadState {
  app_state : AppState;
  processed_files : option (list string)
}.

#[global] Instance UploadState_HasWorld : HasWorld UploadState :=
  {| get_world := λ s, app_world (app_state s);
     put_world := λ w s,
       mkUploadState (mkAppState (session_state (app_state s)) w)
         (processed_files s) |}.

Definition set_processed_files (names : list string) : M UploadState unit :=
  modify (λ s, mkUploadState (app_state s) (Some names)).

(** Run a computation of the application in the wider session. *)
Definition on_app_state {A} (m : M AppState A) : M UploadState A :=
  λ s, let '(res, a) := m (app_state s) in
       (res, mkUploadState a (processed_files s)).

Section MoreApp.
Variable env : Env.

Definition process_uploaded_files (uploaded_files : list UploadedFile)
    : M UploadState unit :=
  s ← get;
  match uploaded_files, rag_system (session_state (app_state s)) with
  | _ :: _, Some r =>
      let current_files := name <$> uploaded_files in
      (match processed_files s with
       | None => set_processed_files []
       | Some _ => mret tt
       end);;
      s ← get;
      if bool_decide (Some current_files ≠ processed_files s)
      then
        processed ← on_app_state
                      (on_rag_system r (process_documents env uploaded_files));
        if (0 <? processed)%nat
        then set_processed_files current_files;;
             st_success ("✅ Successfully processed " +:+ pretty processed
                         +:+ " documents!")
        else mret tt
      else mret tt
  | _, _ => mret tt
  end.

End MoreApp.

(** ** utils.py: [clean_text] *)

(** [s.split()]: the maximal runs of characters that are not whitespace. *)
Fixpoint str_split (s : string) : list string :=
  match s with
  | EmptyString => []
  | String c r =>
      if PyStr.is_space c then str_split r
      else match r with
           | EmptyString => [String c EmptyString]
           | String c' _ =>
               if PyStr.is_space c' then String c EmptyString :: str_split r
               else match str_split r with
                    | w :: ws => String c w :: ws
                    | [] => [String c EmptyString]
                    end
           end
  end.

(** [sep.join(xs)] *)
Fixpoint str_join (sep : string) (xs : list string) : string :=
  match xs with
  | [] => EmptyString
  | [x] => x
  | x :: rest => x +:+ sep +:+ str_join sep rest
  end.

Definition NUL : Ascii.ascii := Ascii.zero.

(** [s.replace('\x00', '')] *)
Fixpoint remove_nul (s : string) : string :=
  match s with
  | EmptyString => EmptyString
  | String c r => if Ascii.eqb c NUL then remove_nul r else String c (remove_nul r)
  end.

Definition clean_text (text : string) : string :=
  if negb (PyStr.truthy text) then ""
  else PyStr.strip (remove_nul (str_join " " (str_split text))).

(** Every character of [s] satisfies [P]. *)
Fixpoint all_chars (P : Ascii.ascii → bool) (s : string) : bool :=
  match s with
  | EmptyString => true
  | String c r => P c && all_chars P r
  end.

Definition not_nul (c : Ascii.ascii) : bool := negb (Ascii.eqb c NUL).
Definition not_space (c : Ascii.ascii) : bool := negb (PyStr.is_space c).
Definition space_is_blank (c : Ascii.ascii) : bool :=
  implb (PyStr.is_space c) (Ascii.eqb c " "%char).

(** A word: not empty, no whitespace. *)
Definition is_word (w : string) : Prop :=
  w ≠ "" ∧ all_chars not_space w = true.

(** ** voice_handler.py: text to speech *)

(** Calls of the speech engines (newest first in the history): Google TTS
    played through pygame, and the pyttsx3 thread. *)
Inductive VoiceCall :=
  | call_gTTS (text language : string)
  | call_pyttsx3 (text : string).

Definition spoken (c : VoiceCall) : string :=
  match c with call_gTTS text _ => text | call_pyttsx3 text => text end.

Record VoiceState := mkVoiceState {
  voice_world : World;
  voice_calls : list VoiceCall
}.

#[global] Instance VoiceState_HasWorld : HasWorld VoiceState :=
  {| get_world := voice_world;
     put_world := λ w s, mkVoiceState w (voice_calls s) |}.

(** How the engines answer, given the calls made before. *)
Record VoiceEnv := mkVoiceEnv {
  gTTS_exn : list VoiceCall → string → option Exn;
  pyttsx3_exn : list VoiceCall → string → option Exn
}.

Definition voice_extern (c : VoiceCall) (exn : list VoiceCall → option Exn)
    : M VoiceState unit :=
  λ s, let s' := mkVoiceState (voice_world s) (c :: voice_calls s) in
       match exn (voice_calls s) with
       | Some e => (Raise e, s')
       | None => (Ok tt, s')
       end.

Section Voice.
Variable venv : VoiceEnv.

Definition speak_text_pyttsx3 (text : string) : M VoiceState unit :=
  try_except
    (voice_extern (call_pyttsx3 text) (λ h, pyttsx3_exn venv h text))
    (λ e, st_error ("❌ Error with pyttsx3 TTS: " +:+ exn_str e)).

Definition speak_text_gtts (text language : string) : M VoiceState unit :=
  try_except
    (voice_extern (call_gTTS text language) (λ h, gTTS_exn venv h text))
    (λ e, st_error ("❌ Error with Google TTS: " +:+ exn_str e);;
          speak_text_pyttsx3 text).

Definition speak_text (text : string) (use_online : bool) : M VoiceState unit :=
  if negb (PyStr.truthy text) || negb (PyStr.truthy (PyStr.strip text))
  then mret tt
  else
    let text :=
      if (500 <? String.length text)%nat
      then String.substring 0 500 text +:+ "..."
      else text in
    if use_online then speak_text_gtts text "en" else speak_text_pyttsx3 text.

End Voice.

(** The text that reaches an engine. *)
Definition tts_text (text : string) : string :=
  if (500 <? String.length text)%nat
  then String.substring 0 500 text +:+ "..."
  else text.

(** No network: Google TTS fails, pyttsx3 works. *)
Definition offline_voice_env : VoiceEnv :=
  mkVoiceEnv (λ _ _, Some (mkExn OSError "Failed to connect"))
    (λ _ _, None).


(** * Properties *)

(** ** Strings *)

Lemma lstrip_all_space (s : string) :
  PyStr.all_space s = true → PyStr.lstrip s = "".
Proof.
  induction s as [|c r IH]; cbn; [done|].
  intros [Hc Hr]%andb_true_iff. rewrite Hc. by apply IH.
Qed.

Lemma strip_all_space (s : string) :
  PyStr.all_space s = true → PyStr.strip s = "".
Proof. intros H. unfold PyStr.strip. by rewrite lstrip_all_space. Qed.

Lemma rstrip_empty (s : string) :
  PyStr.rstrip s = "" → PyStr.all_space s = true.
Proof.
  induction s as [|c r IH]; cbn; [done|].
  destruct (PyStr.rstrip r) eqn:E; [|done].
  destruct (PyStr.is_space c); [|done]. intros _. by rewrite IH.
Qed.

Lemma lstrip_keeps_all_space (s : string) :
  PyStr.all_space (PyStr.lstrip s) = true → PyStr.all_space s = true.
Proof.
  induction s as [|c r IH]; cbn; [done|].
  destruct (PyStr.is_space c) eqn:E; cbn; [done|]. by rewrite E.
Qed.

(** [not question.strip()] holds exactly for the blank questions. *)
Lemma strip_falsy_iff (s : string) :
  PyStr.truthy (PyStr.strip s) = false ↔ PyStr.all_space s = true.
Proof.
  split.
  - intros H. apply lstrip_keeps_all_space, rstrip_empty.
    unfold PyStr.strip in H. by destruct (PyStr.rstrip (PyStr.lstrip s)).
  - intros H. by rewrite strip_all_space.
Qed.

(** ** Running computations *)

Create HintDb run discriminated.
#[global] Hint Unfold mbind mret M_bind M_ret bind ret raise get modify
  try_except try_except_class try_except_all with_local lift get_local
  set_local in_world st st_success st_info st_warning st_error
  extern extern_out returned after : run.

(** Unfold the monad and compute. *)
Ltac run := repeat (autounfold with run in *; cbn in * ).

(** ** C1: a query never raises *)

(** C1. For every environment, question and state, [query_knowledge_base]
    returns a result and never raises: whenever its [try] block raises an
    exception [e], the result is [error_result e], whose answer is the
    fixed prefix followed by [str(e)] and whose source documents are
    empty.  In particular this is the result when the chain (embedding the
    question, retrieving, generating) fails on a non-empty knowledge
    base. *)
Theorem query_knowledge_base_never_raises env question s :
  ∃ r, returned (query_knowledge_base env question) s = Ok r
    ∧ (∀ e s1, query_knowledge_base_try env question s = (Raise e, s1) →
         r = error_result e)
    ∧ (∀ qa h d docs e,
         qa_chain (self s) = Some qa →
         vectorstore (self s) = Some h →
         heap (world s) !! h = Some (Live (d :: docs)) →
         qa_chain_invoke_out env (call_collection_count h :: calls (world s))
           (heap (world s) !! qa) question = inl e →
         r = error_result e
         ∧ answer r = "❌ Error processing your question: " +:+ exn_str e
         ∧ qr_source_documents r = []).
Proof.
  assert (Hchain : ∀ qa h d docs e,
    qa_chain (self s) = Some qa →
    vectorstore (self s) = Some h →
    heap (world s) !! h = Some (Live (d :: docs)) →
    qa_chain_invoke_out env (call_collection_count h :: calls (world s))
      (heap (world s) !! qa) question = inl e →
    (query_knowledge_base_try env question s).1 = Raise e).
  { intros qa h d docs e Hqa Hvs Hh Hout.
    unfold query_knowledge_base_try, vectorstore_collection_count,
      collection_count, qa_chain_invoke.
    destruct s as [r0 w]. run. rewrite Hqa. run. rewrite Hvs. run.
    rewrite Hh. run. by rewrite Hout. }
  unfold returned, query_knowledge_base, try_except.
  destruct (query_knowledge_base_try env question s) as [[r|e] s1] eqn:Htry.
  - exists r. split; [done|]. split; [by intros ???|].
    intros qa h d docs e Hqa Hvs Hh Hout.
    by specialize (Hchain _ _ _ _ _ Hqa Hvs Hh Hout).
  - exists (error_result e). split; [done|]. split.
    + by intros e' s1' [= <- _].
    + intros qa h d docs e' Hqa Hvs Hh Hout.
      specialize (Hchain _ _ _ _ _ Hqa Hvs Hh Hout). cbn in Hchain.
      by injection Hchain as <-.
Qed.

(** The generation service is down while one document is indexed: the
    caller gets the error-flavoured result. *)
Lemma query_knowledge_base_never_raises_witness :
  ∃ r, returned (query_knowledge_base no_generator_env
                   "What is the capital of France?")
         (after (process_documents no_generator_env [notes_txt])
            (new_RAGSystem no_generator_env empty_world)) = Ok r
       ∧ r = error_result quota_exceeded.
Proof.
  destruct (query_knowledge_base_never_raises no_generator_env
              "What is the capital of France?"
              (after (process_documents no_generator_env [notes_txt])
                 (new_RAGSystem no_generator_env empty_world)))
    as (r & Hr & _ & Hchain).
  exists r. split; [exact Hr|].
  eapply (Hchain 0 0); [reflexivity | reflexivity | vm_compute; reflexivity
                       | reflexivity].
Defined.

(** ** Observations that a computation keeps *)

Section Keeps.
Context {S X : Type} (π : S → X).

Lemma keeps_ret {A} (a : A) : keeps π (mret a : M S A).
Proof. by intros s. Qed.

Lemma keeps_raise {A} e : keeps π (raise e : M S A).
Proof. by intros s. Qed.

Lemma keeps_get : keeps π (get : M S S).
Proof. by intros s. Qed.

Lemma keeps_modify (f : S → S) :
  (∀ s, π (f s) = π s) → keeps π (modify f).
Proof. intros Hf s. apply Hf. Qed.

Lemma keeps_bind {A B} (m : M S A) (k : A → M S B) :
  keeps π m → (∀ a, keeps π (k a)) → keeps π (m ≫= k).
Proof.
  intros Hm Hk s. specialize (Hm s). unfold after in *. run.
  destruct (m s) as [[a|e] s1]; cbn in *; [|done].
  by rewrite <- Hm, <- (Hk a s1).
Qed.

Lemma keeps_try_except {A} (body : M S A) handler :
  keeps π body → (∀ e, keeps π (handler e)) →
  keeps π (try_except body handler).
Proof.
  intros Hm Hk s. specialize (Hm s). unfold after in *. run.
  destruct (body s) as [[a|e] s1]; cbn in *; [done|].
  by rewrite <- Hm, <- (Hk e s1).
Qed.

Lemma keeps_try_except_class {A} (body : M S A) C handler :
  keeps π body → (∀ e, keeps π (handler e)) →
  keeps π (try_except_class body C handler).
Proof.
  intros Hm Hk. apply keeps_try_except; [done|].
  intros e. case_decide; [done|]. apply keeps_raise.
Qed.

Lemma keeps_try_except_all {A} (body : M S A) handler :
  keeps π body → keeps π handler → keeps π (try_except_all body handler).
Proof. intros Hm Hk. by apply keeps_try_except. Qed.

Lemma keeps_in_world `{HasWorld S} {A} (m : M World A) :
  (∀ w s, π (put_world w s) = π s) → keeps π (in_world m).
Proof.
  intros Hw s. unfold after, in_world. destruct (m (get_world s)). apply Hw.
Qed.

Lemma keeps_st `{HasWorld S} lvl msg :
  (∀ w s, π (put_world w s) = π s) → keeps π (st lvl msg).
Proof. apply keeps_in_world. Qed.

Lemma keeps_lift {L A} (m : M S A) :
  keeps π m → keeps (π ∘ snd) (lift (L:=L) m).
Proof.
  intros Hm [l s]. specialize (Hm s). unfold after, lift in *. cbn.
  by destruct (m s).
Qed.

Lemma keeps_get_local {L} : keeps (π ∘ snd) (get_local (S:=S) (L:=L)).
Proof. by intros s. Qed.

Lemma keeps_set_local {L} (l : L) : keeps (π ∘ snd) (set_local (S:=S) l).
Proof. by intros s. Qed.

Lemma keeps_with_local {L A} (init : L) (m : M (L * S) A) :
  keeps (π ∘ snd) m → keeps π (with_local init m).
Proof.
  intros Hm s. specialize (Hm (init, s)). unfold after, with_local in *.
  by destruct (m (init, s)) as [r [l s1]].
Qed.

End Keeps.

(** Decompose a goal [keeps π m] along the structure of [m]. *)
Ltac keeps_step :=
  first
    [ apply keeps_ret | apply keeps_raise | apply keeps_get
    | apply keeps_get_local | apply keeps_set_local
    | apply keeps_bind; [|intros ?]
    | apply keeps_try_except_all
    | apply keeps_try_except_class; [|intros ?]
    | apply keeps_try_except; [|intros ?]
    | apply keeps_with_local
    | apply keeps_lift
    | apply keeps_st; done
    | apply keeps_in_world; done
    | apply keeps_modify; done
    | match goal with
      | |- keeps _ (match ?x with _ => _ end) => destruct x
      end ].
Ltac keeps_auto := repeat keeps_step.

(** ** What the private helpers keep *)

Section KeepsMethods.
Variable env : Env.
Context {X : Type} (π : RAGSystem → X).
(** [π] looks at fields that are neither [vectorstore] nor [embeddings]
    nor [documents]. *)
Hypothesis π_vectorstore : ∀ v r, π (set_vectorstore v r) = π r.
Hypothesis π_embeddings : ∀ b r, π (set_embeddings b r) = π r.
Hypothesis π_documents : ∀ d r, π (set_documents d r) = π r.

Lemma keeps_setup_fresh_vectorstore :
  keeps (π ∘ self) (setup_fresh_vectorstore env).
Proof.
  unfold setup_fresh_vectorstore, st_info, st_error. keeps_auto.
  intros s. apply π_vectorstore.
Qed.

Lemma keeps_load_document path ty :
  keeps (π ∘ self) (load_document env path ty).
Proof.
  unfold load_document, load_document_try, st_error. keeps_auto.
Qed.

Lemma keeps_vectorstore_add_documents texts :
  keeps (π ∘ self) (vectorstore_add_documents env texts).
Proof. unfold vectorstore_add_documents. keeps_auto. Qed.

Lemma keeps_documents_extend texts :
  keeps (π ∘ self) (documents_extend texts).
Proof.
  unfold documents_extend. apply keeps_modify. intros s. apply π_documents.
Qed.

Lemma keeps_process_file f :
  keeps (π ∘ self ∘ snd) (process_file env f).
Proof.
  unfold process_file, st_success, st_error.
  repeat first
    [ apply (keeps_lift (π ∘ self)); first
        [ apply keeps_load_document | apply keeps_vectorstore_add_documents
        | apply keeps_documents_extend ]
    | apply (keeps_get_local (π ∘ self))
    | apply (keeps_set_local (π ∘ self))
    | keeps_step ].
Qed.

Lemma keeps_for_uploaded_files files :
  keeps (π ∘ self ∘ snd) (for_uploaded_files env files).
Proof.
  induction files as [|f rest IH]; cbn [for_uploaded_files].
  - apply keeps_ret.
  - apply keeps_bind; [apply keeps_process_file | by intros _].
Qed.

Lemma keeps_process_documents files :
  keeps (π ∘ self) (process_documents env files).
Proof.
  unfold process_documents, st_success. apply keeps_with_local.
  apply keeps_bind; [apply keeps_for_uploaded_files|intros _].
  apply keeps_bind; [apply (keeps_get_local (π ∘ self))|intros n].
  keeps_auto.
Qed.

Lemma keeps_add_text_document text doc_name :
  keeps (π ∘ self) (add_text_document env text doc_name).
Proof.
  unfold add_text_document, st_success, st_error.
  repeat first
    [ apply keeps_vectorstore_add_documents | apply keeps_documents_extend
    | keeps_step ].
Qed.

Lemma keeps_vectorstore_collection_count :
  keeps (π ∘ self) vectorstore_collection_count.
Proof. unfold vectorstore_collection_count. keeps_auto. Qed.

Lemma keeps_query_knowledge_base question :
  keeps (π ∘ self) (query_knowledge_base env question).
Proof.
  unfold query_knowledge_base, query_knowledge_base_try, st_error.
  repeat first [ apply keeps_vectorstore_collection_count | keeps_step ].
Qed.

Lemma keeps_get_knowledge_base_stats :
  keeps (π ∘ self) get_knowledge_base_stats.
Proof.
  unfold get_knowledge_base_stats, st_error.
  repeat first [ apply keeps_vectorstore_collection_count | keeps_step ].
Qed.

Lemma keeps_clear_tail :
  keeps (π ∘ self)
    (try_except_all
       (setup_fresh_vectorstore env;; st_info "🔄 Created new knowledge base")
       (mret tt)).
Proof.
  unfold st_info.
  repeat first [ apply keeps_setup_fresh_vectorstore | keeps_step ].
Qed.

Lemma keeps_clear_knowledge_base :
  keeps (π ∘ self) (clear_knowledge_base env).
Proof.
  unfold clear_knowledge_base, time_sleep, st_success, st_warning, st_error,
    st_info.
  repeat first
    [ apply keeps_setup_fresh_vectorstore
    | apply keeps_modify; intros ?; first [apply π_documents | apply π_vectorstore]
    | keeps_step ].
Qed.

End KeepsMethods.

(** ** Computations that never raise *)

Section NeverRaises.
Context {S : Type}.

Lemma never_raises_ret {A} (a : A) : never_raises (mret a : M S A).
Proof. intros s. by exists a. Qed.

Lemma never_raises_bind {A B} (m : M S A) (k : A → M S B) :
  never_raises m → (∀ a, never_raises (k a)) → never_raises (m ≫= k).
Proof.
  intros Hm Hk s. destruct (Hm s) as [a Ha]. unfold returned in *. run.
  destruct (m s) as [[a'|e] s1]; [|done]. apply Hk.
Qed.

Lemma never_raises_try_except {A} (body : M S A) handler :
  (∀ e, never_raises (handler e)) → never_raises (try_except body handler).
Proof.
  intros Hk s. unfold returned. run.
  destruct (body s) as [[a|e] s1]; [by exists a|]. apply Hk.
Qed.

Lemma never_raises_try_except_all {A} (body : M S A) handler :
  never_raises handler → never_raises (try_except_all body handler).
Proof. intros Hk. by apply never_raises_try_except. Qed.

Lemma never_raises_st `{HasWorld S} lvl msg : never_raises (st (S:=S) lvl msg).
Proof. intros s. by exists tt. Qed.

Lemma never_raises_modify (f : S → S) : never_raises (modify f).
Proof. intros s. by exists tt. Qed.

Lemma never_raises_get_local {L} : never_raises (get_local (S:=S) (L:=L)).
Proof. intros s. by eexists. Qed.

Lemma never_raises_with_local {L A} (init : L) (m : M (L * S) A) :
  never_raises m → never_raises (with_local init m).
Proof.
  intros Hm s. destruct (Hm (init, s)) as [a Ha]. exists a.
  unfold returned, with_local in *. by destruct (m (init, s)) as [r [l s1]].
Qed.

End NeverRaises.

Ltac never_raises_step :=
  first
    [ apply never_raises_ret | apply never_raises_st
    | apply never_raises_modify | apply never_raises_get_local
    | apply never_raises_try_except_all
    | apply never_raises_try_except; intros ?
    | apply never_raises_bind; [|intros ?]
    | apply never_raises_with_local
    | match goal with
      | |- never_raises (match ?x with _ => _ end) => destruct x
      end ].
Ltac never_raises_auto := repeat never_raises_step.

Lemma load_document_never_raises env path ty :
  never_raises (load_document env path ty).
Proof. unfold load_document, st_error. never_raises_auto. Qed.

Lemma process_file_never_raises env f : never_raises (process_file env f).
Proof. unfold process_file, st_error. never_raises_auto. Qed.

Lemma for_uploaded_files_never_raises env files :
  never_raises (for_uploaded_files env files).
Proof.
  induction files as [|f rest IH]; cbn [for_uploaded_files].
  - apply never_raises_ret.
  - apply never_raises_bind; [apply process_file_never_raises | by intros _].
Qed.

Lemma process_documents_never_raises env files :
  never_raises (process_documents env files).
Proof.
  unfold process_documents, st_success.
  apply never_raises_with_local, never_raises_bind;
    [apply for_uploaded_files_never_raises | intros _].
  never_raises_auto.
Qed.

Lemma get_knowledge_base_stats_never_raises :
  never_raises get_knowledge_base_stats.
Proof. unfold get_knowledge_base_stats, st_error. never_raises_auto. Qed.

Lemma clear_knowledge_base_never_raises env :
  never_raises (clear_knowledge_base env).
Proof. unfold clear_knowledge_base, st_error. never_raises_auto. Qed.

(** ** C10: clearing empties the list of sources *)

Lemma after_try_except_modify {S A} (f : S → S) (rest : M S A) handler s :
  after (try_except (modify f;; rest) handler) s
  = after (try_except rest handler) (f s).
Proof. reflexivity. Qed.

Lemma stats_without_documents s :
  documents (self s) = [] →
  ∃ n, returned get_knowledge_base_stats s = Ok (mkStats n []).
Proof.
  intros Hdocs. destruct s as [r w].
  unfold get_knowledge_base_stats, vectorstore_collection_count,
    collection_count. run.
  destruct (vectorstore r) as [h|] eqn:Hv; run; rewrite ?Hv; run;
    [|by exists 0].
  destruct (heap w !! h) as [[docs|]|] eqn:Hh; run; [|by exists 0..].
  exists (length docs). by rewrite Hdocs.
Qed.

(** [self.documents = []] comes first and nothing later assigns the list. *)
Lemma clear_knowledge_base_documents env s :
  documents (self (after (clear_knowledge_base env) s)) = [].
Proof.
  unfold clear_knowledge_base. rewrite after_try_except_modify.
  match goal with
  | |- documents (self (after ?m ?s0)) = _ =>
      assert (Hk : keeps (documents ∘ self) m)
  end.
  { unfold time_sleep, st_success, st_warning, st_error.
    repeat first
      [ apply keeps_clear_tail; done
      | apply keeps_setup_fresh_vectorstore; done
      | apply keeps_modify; done
      | keeps_step ]. }
  apply Hk.
Qed.

(** C10. [clear_knowledge_base] never raises, and in the state it leaves,
    whatever the collaborators did (the reset, the deletion of the persist
    directory or the rebuilding of the store may all have failed), the
    in-memory [documents] list is empty and [get_knowledge_base_stats]
    returns an empty list of sources. *)
Theorem clear_knowledge_base_empties_sources env s :
  (∃ ok, returned (clear_knowledge_base env) s = Ok ok)
  ∧ documents (self (after (clear_knowledge_base env) s)) = []
  ∧ ∃ n, returned get_knowledge_base_stats
           (after (clear_knowledge_base env) s) = Ok (mkStats n []).
Proof.
  split; [apply clear_knowledge_base_never_raises|].
  split; [apply clear_knowledge_base_documents|].
  apply stats_without_documents, clear_knowledge_base_documents.
Qed.

(** ** C7: construction starts from a fresh, empty store *)

(** What a successful [setup_fresh_vectorstore] leaves. *)
Lemma setup_fresh_vectorstore_ok env s s' :
  setup_fresh_vectorstore env s = (Ok tt, s') →
  ∃ h, vectorstore (self s') = Some h
     ∧ (h ∉ dom (heap (world s)))
     ∧ heap (world s') = <[h := Live []]> (heap (world s))
     ∧ dirs (world s') !! persist_directory (self s) = Some h
     ∧ self s' = set_vectorstore (Some h) (self s)
     ∧ (is_Some (dirs (world s) !! persist_directory (self s)) →
        call_shutil_rmtree (persist_directory (self s)) ∈ calls (world s')).
Proof.
  destruct s as [r w]. unfold setup_fresh_vectorstore, os_path_exists,
    shutil_rmtree, Chroma. run.
  case_bool_decide as Hdir; run.
  - destruct (shutil_rmtree_exn env (calls w) (persist_directory r)); run;
      [done|].
    destruct (Chroma_exn env _ (persist_directory r)); run; [done|].
    rewrite lookup_delete_eq. run. intros [= <-]. run.
    eexists. split_and!; try done.
    + apply is_fresh.
    + by rewrite lookup_insert_eq.
    + intros _. set_solver.
  - destruct (Chroma_exn env _ (persist_directory r)); run; [done|].
    apply eq_None_not_Some in Hdir. rewrite Hdir. run. intros [= <-]. run.
    eexists. split_and!; try done.
    + apply is_fresh.
    + by rewrite lookup_insert_eq.
Qed.

Lemma bind_ok {S A B} (m : M S A) (k : A → M S B) s b s' :
  (m ≫= k) s = (Ok b, s') →
  ∃ a s1, m s = (Ok a, s1) ∧ k a s1 = (Ok b, s').
Proof. run. destruct (m s) as [[a|e] s1]; [eauto|done]. Qed.

Lemma setup_embeddings_ok env s s' :
  setup_embeddings env s = (Ok tt, s') →
  self s' = set_embeddings true (self s)
  ∧ heap (world s') = heap (world s)
  ∧ dirs (world s') = dirs (world s).
Proof.
  destruct s as [r w]. unfold setup_embeddings. run.
  destruct (HuggingFaceEmbeddings_exn env (calls w)); run; [done|].
  by intros [= <-].
Qed.

Lemma setup_qa_chain_ok env s s' :
  setup_qa_chain env s = (Ok tt, s') →
  self s' = set_qa_chain (vectorstore (self s)) (self s)
  ∧ is_Some (vectorstore (self s))
  ∧ heap (world s') = heap (world s)
  ∧ dirs (world s') = dirs (world s)
  ∧ ∀ c, c ∈ calls (world s) → c ∈ calls (world s').
Proof.
  destruct s as [r w]. unfold setup_qa_chain. run.
  destruct (ChatGoogleGenerativeAI_exn env (calls w)); run; [done|].
  destruct (vectorstore r) as [h|] eqn:Hv; run; [|done].
  destruct (RetrievalQA_exn env _); run; [done|].
  intros [= <-]. run. rewrite ?Hv. split_and!; try done. set_solver.
Qed.

(** What a successful construction leaves. *)
Lemma init_ok env api_key directory w r w' :
  __init__ env api_key directory w = (Ok r, w') →
  ∃ h, r = mkRAGSystem api_key directory true (Some h) (Some h) []
     ∧ (h ∉ dom (heap w))
     ∧ heap w' = <[h := Live []]> (heap w)
     ∧ dirs w' !! directory = Some h
     ∧ (is_Some (dirs w !! directory) →
        call_shutil_rmtree directory ∈ calls w').
Proof.
  unfold __init__.
  match goal with
  | |- context [?body (mkState ?r0 w)] =>
      destruct (body (mkState r0 w)) as [[[]|e] s3] eqn:Hbody; [|done]
  end.
  intros [= <- <-].
  apply bind_ok in Hbody as ([] & s0 & Hconf & Hbody).
  apply bind_ok in Hbody as ([] & s1 & Hemb & Hbody).
  apply bind_ok in Hbody as ([] & s2 & Hfresh & Hqa).
  assert (Hs0 : self s0 = mkRAGSystem api_key directory false None None []
                ∧ heap (world s0) = heap w ∧ dirs (world s0) = dirs w).
  { revert Hconf. run.
    destruct (genai_configure_exn env (calls w) api_key); [done|].
    by intros [= <-]. }
  destruct Hs0 as (Hself0 & Hheap0 & Hdirs0).
  apply setup_embeddings_ok in Hemb as (Hself1 & Hheap1 & Hdirs1).
  apply setup_fresh_vectorstore_ok in Hfresh
    as (h & Hvs & Hfresh & Hheap2 & Hdirs2 & Hself2 & Hrm).
  apply setup_qa_chain_ok in Hqa as (Hself3 & _ & Hheap3 & Hdirs3 & Hcalls).
  rewrite Hself1, Hself0 in *. cbn in *.
  rewrite Hheap1, Hheap0 in *. rewrite Hdirs1, Hdirs0 in *.
  exists h. rewrite Hself3, Hself2. cbn. split_and!; try done.
  - by rewrite Hheap3.
  - by rewrite Hdirs3.
  - intros Hdir. by apply Hcalls, Hrm.
Qed.

(** With collaborators that work, the constructor returns an object. *)
Lemma init_returns env api_key directory w :
  (∀ c, genai_configure_exn env c api_key = None) →
  (∀ c, HuggingFaceEmbeddings_exn env c = None) →
  (∀ c, shutil_rmtree_exn env c directory = None) →
  (∀ c, Chroma_exn env c directory = None) →
  (∀ c, ChatGoogleGenerativeAI_exn env c = None) →
  (∀ c, RetrievalQA_exn env c = None) →
  ∃ r w', __init__ env api_key directory w = (Ok r, w').
Proof.
  intros Hconf Hemb Hrm Hchroma Hllm Hqa.
  unfold __init__, setup_embeddings, setup_fresh_vectorstore, setup_qa_chain,
    os_path_exists, shutil_rmtree, Chroma.
  run. rewrite Hconf. run. rewrite Hemb. run.
  case_bool_decide; run; rewrite ?Hrm; run; rewrite Hchroma; run.
  - rewrite lookup_delete_eq. run. rewrite Hllm. run. rewrite Hqa. run. eauto.
  - destruct (dirs w !! directory) eqn:E; [exfalso; eauto|].
    run. rewrite Hllm. run. rewrite Hqa. run. eauto.
Qed.

(** C7. When no collaborator fails the constructor returns an object;
    and whenever it returns an object, the object's store is a collection
    that did not exist before the call, that collection is empty and is
    the one now persisted at the configured directory, the [documents]
    list is empty, the statistics report no chunk and no source, and if a
    directory was persisted at that path before, it was removed with
    [shutil.rmtree] first. *)
Theorem init_discards_persisted_index env api_key directory w :
  ((∀ c, genai_configure_exn env c api_key = None) →
   (∀ c, HuggingFaceEmbeddings_exn env c = None) →
   (∀ c, shutil_rmtree_exn env c directory = None) →
   (∀ c, Chroma_exn env c directory = None) →
   (∀ c, ChatGoogleGenerativeAI_exn env c = None) →
   (∀ c, RetrievalQA_exn env c = None) →
   ∃ r w', __init__ env api_key directory w = (Ok r, w'))
  ∧ (∀ r w',
       __init__ env api_key directory w = (Ok r, w') →
       ∃ h, vectorstore r = Some h
          ∧ (h ∉ dom (heap w))
          ∧ heap w' !! h = Some (Live [])
          ∧ dirs w' !! directory = Some h
          ∧ documents r = []
          ∧ (is_Some (dirs w !! directory) →
             call_shutil_rmtree directory ∈ calls w')
          ∧ returned get_knowledge_base_stats (mkState r w')
            = Ok (mkStats 0 [])).
Proof.
  split; [apply init_returns|].
  intros r w' (h & -> & Hfresh & Hheap & Hdirs & Hrm)%init_ok.
  assert (Hlive : heap w' !! h = Some (Live []))
    by (by rewrite Hheap, lookup_insert_eq).
  exists h. split_and!; try done.
  unfold get_knowledge_base_stats, vectorstore_collection_count,
    collection_count. run. by rewrite Hlive.
Qed.

(** A previous session left two chunks on disk: the new object does not
    see them. *)
Lemma init_discards_persisted_index_witness :
  ∃ h, vectorstore (self (new_RAGSystem quiet_env stale_world)) = Some h
     ∧ heap (world (new_RAGSystem quiet_env stale_world)) !! h = Some (Live [])
     ∧ h ≠ 7
     ∧ call_shutil_rmtree "./chroma_db"
       ∈ calls (world (new_RAGSystem quiet_env stale_world)).
Proof.
  destruct (init_discards_persisted_index quiet_env "key" "./chroma_db"
              stale_world) as [Hreturns Hfresh].
  destruct Hreturns as (r & w' & E); try done.
  destruct (Hfresh r w' E) as (h & Hvs & Hnew & Hlive & _ & _ & Hrm & _).
  exists h. unfold new_RAGSystem. rewrite E. cbn. split_and!; try done.
  - intros ->. apply Hnew. vm_compute. reflexivity.
  - apply Hrm. vm_compute. eauto.
Defined.

(** ** C2: a query on an empty knowledge base *)

(** The QA chain of a constructed object is never [None]. *)
Lemma reachable_qa_chain env s :
  reachable env s → is_Some (qa_chain (self s)).
Proof.
  induction 1 as [api_key directory w r w' Hinit|s s' _ IH Hstep].
  - apply init_ok in Hinit as (h & -> & _). by eexists.
  - destruct Hstep;
      match goal with
      | |- is_Some (qa_chain (self (after ?m ?s0))) =>
          assert (Hk : keeps (qa_chain ∘ self) m)
            by (first [ apply keeps_process_documents
                      | apply keeps_add_text_document
                      | apply keeps_query_knowledge_base
                      | apply keeps_get_knowledge_base_stats
                      | apply keeps_clear_knowledge_base ]; done);
          specialize (Hk s0); cbn in Hk; by rewrite Hk
      end.
Qed.

Lemma calls_since_cons c w w' :
  calls w' = c :: calls w → calls_since w w' = [c].
Proof.
  intros H. unfold calls_since. rewrite H. cbn [length].
  replace (S (length (calls w)) - length (calls w)) with 1 by lia.
  done.
Qed.

(** [count() == 0] means that the store is a live, empty collection. *)
Lemma collection_count_zero s :
  returned vectorstore_collection_count s = Ok 0 →
  ∃ h, vectorstore (self s) = Some h ∧ heap (world s) !! h = Some (Live []).
Proof.
  destruct s as [r w]. unfold vectorstore_collection_count, collection_count.
  run. destruct (vectorstore r) as [h|]; run; [|done].
  destruct (heap w !! h) as [[[|d docs]|]|] eqn:Hh; run; try done.
  intros _. by exists h.
Qed.

(** C2. On an object that was constructed and then used through its
    methods, when [self.vectorstore._collection.count()] is [0] a query
    returns, for every question, the fixed answer "No documents in
    knowledge base..." with no source documents; the only collaborator
    call it makes is that [count()], so neither the embedding provider
    nor the answer generator is invoked, and the knowledge base is left
    as it was. *)
Theorem query_empty_knowledge_base env question s :
  reachable env s →
  returned vectorstore_collection_count s = Ok 0 →
  returned (query_knowledge_base env question) s = Ok no_documents
  ∧ existsb invokes_embedder
      (calls_since (world s)
         (world (after (query_knowledge_base env question) s))) = false
  ∧ existsb invokes_generator
      (calls_since (world s)
         (world (after (query_knowledge_base env question) s))) = false
  ∧ knowledge_base (after (query_knowledge_base env question) s)
    = knowledge_base s.
Proof.
  intros [qa Hqa]%reachable_qa_chain (h & Hvs & Hh)%collection_count_zero.
  destruct s as [r w]. cbn in *.
  assert (Hrun : query_knowledge_base env question (mkState r w)
                 = (Ok no_documents,
                    mkState r (set_calls (call_collection_count h :: calls w) w))).
  { unfold query_knowledge_base, query_knowledge_base_try,
      vectorstore_collection_count, collection_count.
    run. rewrite Hqa. run. rewrite Hvs. run. by rewrite Hh. }
  unfold returned, after. rewrite Hrun. cbn [fst snd world].
  rewrite (calls_since_cons (call_collection_count h)) by done.
  done.
Qed.

(** A new object on an empty world has no chunk: the question is answered
    with the fixed message. *)
Lemma query_empty_knowledge_base_witness :
  returned (query_knowledge_base quiet_env "What is the capital of France?")
    (new_RAGSystem quiet_env empty_world) = Ok no_documents.
Proof.
  apply query_empty_knowledge_base; [|vm_compute; reflexivity].
  unfold new_RAGSystem.
  destruct (__init__ quiet_env "key" "./chroma_db" empty_world)
    as [[r|e] w'] eqn:E.
  - eapply reachable_init, E.
  - exfalso. vm_compute in E. discriminate.
Defined.

(** ** C3: blank questions *)

(** [query_knowledge_base] does not look at the question before it asks
    the store and the chain: with one document indexed, the empty question
    goes through [count()] and [qa_chain.invoke] and comes back with the
    generator's answer. *)
Lemma query_knowledge_base_blank_question_invokes_chain :
  PyStr.all_space "" = true
  ∧ existsb invokes_generator
      (calls_since (world (indexed_notes quiet_env))
         (world (after (query_knowledge_base quiet_env "")
                   (indexed_notes quiet_env)))) = true
  ∧ existsb invokes_embedder
      (calls_since (world (indexed_notes quiet_env))
         (world (after (query_knowledge_base quiet_env "")
                   (indexed_notes quiet_env)))) = true
  ∧ existsb touches_index
      (calls_since (world (indexed_notes quiet_env))
         (world (after (query_knowledge_base quiet_env "")
                   (indexed_notes quiet_env)))) = true
  ∧ ∃ r, returned (query_knowledge_base quiet_env "")
           (indexed_notes quiet_env) = Ok r
         ∧ answer r = "Answer to: ".
Proof.
  split_and!; try (vm_compute; reflexivity).
  eexists. split; vm_compute; reflexivity.
Qed.

(** C3 (amended). The blank question is stopped in [handle_query]: for
    every question that is empty or only whitespace, [handle_query] logs the
    warning "Please enter a question." and returns; it appends no message,
    does not call [query_knowledge_base] and makes no collaborator call, so
    the index, the embedding provider and the answer generator are not
    touched. *)
Theorem handle_query_blank_question env question tts_method s :
  PyStr.all_space question = true →
  handle_query env question tts_method s
  = (Ok tt,
     mkAppState (session_state s)
       (set_log ((Warning, "⚠️ Please enter a question.") :: log (app_world s))
          (app_world s)))
  ∧ calls_since (app_world s)
      (app_world (after (handle_query env question tts_method) s)) = [].
Proof.
  intros Hblank%strip_falsy_iff.
  assert (Hrun : handle_query env question tts_method s
    = (Ok tt,
       mkAppState (session_state s)
         (set_log ((Warning, "⚠️ Please enter a question.") :: log (app_world s))
            (app_world s)))).
  { unfold handle_query. by rewrite Hblank. }
  split; [done|]. unfold after. rewrite Hrun. unfold calls_since.
  cbn [snd app_world calls set_log]. by rewrite Nat.sub_diag.
Qed.

Lemma handle_query_blank_question_witness :
  calls_since (app_world (app_with_notes quiet_env))
    (app_world (after (handle_query quiet_env "   " "Offline")
                  (app_with_notes quiet_env))) = [].
Proof.
  apply (handle_query_blank_question quiet_env "   " "Offline").
  reflexivity.
Defined.

(** ** C6: unsupported file types *)

(** For the type [exe] the caller gets the empty list, not an exception,
    and the type [doc] is loaded. *)
Lemma load_document_unsupported_is_not_raised :
  returned (load_document quiet_env "/tmp/setup.exe" "exe")
    (new_RAGSystem quiet_env empty_world) = Ok []
  ∧ returned (load_document quiet_env "/tmp/report.doc" "doc") report_on_disk
    = Ok [mkDocument "Quarterly report" {["source" := "/tmp/report.doc"]}].
Proof. split; vm_compute; reflexivity. Qed.

(** C6 (amended). For every file type whose lower-case form is none of
    pdf, txt, docx and doc, the [try] block of [load_document] raises
    [ValueError("Unsupported file type: ...")] before any loader is built;
    [load_document] catches it, reports it with [st.error] and returns the
    empty list to its caller. *)
Theorem load_document_unsupported env file_path file_type s :
  PyStr.lower file_type ≠ "pdf" →
  PyStr.lower file_type ≠ "txt" →
  PyStr.lower file_type ≠ "docx" →
  PyStr.lower file_type ≠ "doc" →
  load_document_try env file_path file_type s
  = (Raise (mkExn ValueError ("Unsupported file type: " +:+ file_type)), s)
  ∧ load_document env file_path file_type s
    = (Ok [],
       on_world
         (λ w, set_log
                 ((Error, "❌ Error loading document " +:+ file_path +:+ ": "
                          +:+ "Unsupported file type: " +:+ file_type)
                  :: log w) w) s).
Proof.
  intros Hpdf%String.eqb_neq Htxt%String.eqb_neq Hdocx Hdoc.
  assert (Htry : load_document_try env file_path file_type s
    = (Raise (mkExn ValueError ("Unsupported file type: " +:+ file_type)), s)).
  { unfold load_document_try. run. rewrite Hpdf, Htxt.
    rewrite bool_decide_eq_false_2; [done|].
    rewrite !elem_of_cons, elem_of_nil. by intros [?|[?|[]]]. }
  split; [done|]. unfold load_document. run. by rewrite Htry.
Qed.

Lemma load_document_unsupported_witness :
  returned (load_document quiet_env "/tmp/setup.exe" "EXE")
    (new_RAGSystem quiet_env empty_world) = Ok [].
Proof.
  unfold returned.
  by rewrite (proj2 (load_document_unsupported quiet_env "/tmp/setup.exe" "EXE"
                       (new_RAGSystem quiet_env empty_world)
                       ltac:(done) ltac:(done) ltac:(done) ltac:(done))).
Defined.

(** ** The loop body of [process_documents] against the pipeline *)

Lemma loader_choice {S} file_type :
  (if String.eqb (PyStr.lower file_type) "pdf" then mret PyPDFLoader
   else if String.eqb (PyStr.lower file_type) "txt" then mret TextLoader
   else if bool_decide (PyStr.lower file_type ∈ ["docx"; "doc"])
        then mret UnstructuredWordDocumentLoader
   else raise (mkExn ValueError ("Unsupported file type: " +:+ file_type)))
  = (match supported_loader file_type with
     | Some l => mret l
     | None => raise (mkExn ValueError ("Unsupported file type: " +:+ file_type))
     end : M S Loader).
Proof.
  unfold supported_loader.
  destruct (String.eqb (PyStr.lower file_type) "pdf"); [done|].
  destruct (String.eqb (PyStr.lower file_type) "txt"); [done|].
  destruct (String.eqb_spec (PyStr.lower file_type) "docx") as [->|Hdocx];
    [done|].
  destruct (String.eqb_spec (PyStr.lower file_type) "doc") as [->|Hdoc];
    [done|].
  rewrite bool_decide_eq_false_2; [done|].
  rewrite !elem_of_cons, elem_of_nil. by intros [?|[?|[]]].
Qed.

(** [load_document] in one step. *)
Lemma load_document_run env path ty s :
  load_document env path ty s
  = match supported_loader ty with
    | None =>
        (Ok [], logged Error ("❌ Error loading document " +:+ path +:+ ": "
                              +:+ "Unsupported file type: " +:+ ty) s)
    | Some l =>
        match loader_load_out env (calls (world s)) l path
                (files (world s) !! path) with
        | inr docs => (Ok docs, recorded (call_loader_load l path) s)
        | inl e =>
            (Ok [], logged Error ("❌ Error loading document " +:+ path +:+ ": "
                                  +:+ exn_str e)
                      (recorded (call_loader_load l path) s))
        end
    end.
Proof.
  unfold load_document, load_document_try. rewrite loader_choice.
  destruct (supported_loader ty) as [l|]; [|done].
  unfold loader_load. run.
  by destruct (loader_load_out env _ l path _).
Qed.

(** Case analysis on what a collaborator answered. *)
Ltac split_on x :=
  let E := fresh "E" in destruct x eqn:E; run; rewrite ?E; run.

Ltac oracle_case :=
  match goal with
  | |- context [match ?x with _ => _ end] =>
      lazymatch x with
      | context [match _ with _ => _ end] => fail
      | _ => destruct x eqn:?
      end
  end.

(** The loop body counts a file exactly when the pipeline indexes it, and
    then appends its chunks; otherwise it leaves the knowledge base alone. *)
Lemma process_file_spec env f n s :
  match file_chunks env f s with
  | Some texts =>
      (after (process_file env f) (n, s)).1 = n + 1
      ∧ self (after (process_file env f) (n, s)).2
        = set_documents (documents (self s) ++ texts) (self s)
      ∧ ∃ h docs,
          vectorstore (self s) = Some h
          ∧ heap (world s) !! h = Some (Live docs)
          ∧ heap (world (after (process_file env f) (n, s)).2)
            = <[h := Live (docs ++ texts)]> (heap (world s))
  | None =>
      (after (process_file env f) (n, s)).1 = n
      ∧ knowledge_base (after (process_file env f) (n, s)).2 = knowledge_base s
  end.
Proof.
  destruct s as [r w].
  unfold process_file, file_chunks, NamedTemporaryFile, file_suffix,
    file_extension, knowledge_base, split_documents,
    vectorstore_add_documents, add_documents, documents_extend, os_unlink.
  run.
  split_on (NamedTemporaryFile_out env (calls w)
              ("." +:+ PyStr.last_item (PyStr.split "." (name f)))
              (getvalue f)); [done|].
  rewrite load_document_run. cbn. rewrite lookup_insert_eq.
  destruct (supported_loader _) as [l|]; run; [|oracle_case; run; done].
  destruct (loader_load_out env _ l _ _) as [e|[|d docs]]; run.
  1,2: oracle_case; run; done.
  destruct (split_documents_out env _ _) as [e|texts]; run; [done|].
  split_on (vectorstore r); [|done].
  match goal with
  | |- context [add_documents_exn env ?c ?t] =>
      split_on (add_documents_exn env c t); [split; congruence|]
  end.
  match goal with
  | |- context [heap w !! ?h] =>
      destruct (heap w !! h) as [[old|]|] eqn:Hh; run; rewrite ?Hh; run;
        [|split; congruence..]
  end.
  oracle_case; run; (split_and!; [done..|]); eauto.
Qed.

(** The state the loop body leaves does not depend on the counter. *)
Lemma process_file_frame env f n s :
  (after (process_file env f) (n, s)).2 = after_file env f s.
Proof.
  destruct s as [r w].
  unfold after_file, process_file, NamedTemporaryFile,
    split_documents, vectorstore_add_documents, add_documents,
    documents_extend, os_unlink.
  run.
  repeat (oracle_case; run; try done).
Qed.

Lemma after_bind_never_raises {S A B} (m : M S A) (k : M S B) s :
  never_raises m → (m ≫= λ _, k) s = k (after m s).
Proof.
  intros Hm. destruct (Hm s) as [a Ha]. unfold returned, after in *. run.
  by destruct (m s) as [[a'|e] s1].
Qed.

Lemma for_uploaded_files_cons env f rest ls :
  after (for_uploaded_files env (f :: rest)) ls
  = after (for_uploaded_files env rest) (after (process_file env f) ls).
Proof.
  unfold after at 1. cbn [for_uploaded_files].
  by rewrite after_bind_never_raises by apply process_file_never_raises.
Qed.

Lemma for_uploaded_files_spec env files n s :
  (after (for_uploaded_files env files) (n, s)).1
  = n + ingested_count env files s
  ∧ documents (self (after (for_uploaded_files env files) (n, s)).2)
    = (documents (self s) ++ ingested_chunks env files s)%list.
Proof.
  revert n s. induction files as [|f rest IH]; intros n s.
  - cbn. split; [lia|by rewrite app_nil_r].
  - cbn [ingested_count ingested_chunks]. rewrite for_uploaded_files_cons.
    pose proof (process_file_spec env f n s) as Hf.
    pose proof (process_file_frame env f n s) as Hs.
    destruct (after (process_file env f) (n, s)) as [n1 s1].
    cbn in Hs. subst s1.
    destruct (IH n1 (after_file env f s)) as [-> ->].
    destruct (file_chunks env f s) as [texts|]; cbn in *.
    + destruct Hf as (-> & -> & _). cbn. split; [lia|by rewrite app_assoc].
    + destruct Hf as (-> & [= _ -> _]). split; [lia|done].
Qed.

(** [process_documents] in terms of its loop. *)
Lemma process_documents_run env files s :
  process_documents env files s
  = (Ok (after (for_uploaded_files env files) (0, s)).1,
     if (0 <? (after (for_uploaded_files env files) (0, s)).1)%nat
     then logged Success
            ("🎉 Successfully processed "
             +:+ pretty (after (for_uploaded_files env files) (0, s)).1
             +:+ " documents!")
            (after (for_uploaded_files env files) (0, s)).2
     else (after (for_uploaded_files env files) (0, s)).2).
Proof.
  destruct (for_uploaded_files_never_raises env files (0, s)) as [[] Hret].
  unfold process_documents, returned, after in *. run.
  destruct (for_uploaded_files env files (0, s)) as [[[]|e] [n1 s1]];
    cbn in *; [|done].
  by destruct n1.
Qed.

(** ** C4: batch ingestion *)





(** ** C9: [load_document] is total *)

(** When [load_document] returns the empty list for the temporary copy of
    a file, the pipeline does not index the file. *)
Lemma file_chunks_load_empty env f s path s1 :
  in_world (NamedTemporaryFile env (file_suffix f) (getvalue f)) s
  = (Ok path, s1) →
  returned (load_document env path (file_extension f)) s1 = Ok [] →
  file_chunks env f s = None.
Proof.
  destruct s as [r w]. unfold returned. rewrite load_document_run.
  unfold NamedTemporaryFile, file_chunks. run.
  destruct (NamedTemporaryFile_out env (calls w) _ _) as [e|p]; run;
    [done|].
  intros [= -> <-]. cbn. rewrite lookup_insert_eq.
  destruct (supported_loader _) as [l|]; [|done].
  by destruct (loader_load_out env _ l path _) as [e|[|d docs]].
Qed.

(** C9. [load_document] returns a list for every path, type and state and
    never raises; whenever its [try] block raises (an unsupported type, a
    loader that fails) it returns the empty list; and when it returns the
    empty list for the temporary copy of an uploaded file,
    [process_documents] does not count that file and leaves the knowledge
    base as it was. *)
Theorem load_document_total env :
  (∀ path ty, never_raises (load_document env path ty))
  ∧ (∀ path ty s e s1,
       load_document_try env path ty s = (Raise e, s1) →
       returned (load_document env path ty) s = Ok [])
  ∧ (∀ f s path s1,
       in_world (NamedTemporaryFile env (file_suffix f) (getvalue f)) s
       = (Ok path, s1) →
       returned (load_document env path (file_extension f)) s1 = Ok [] →
       returned (process_documents env [f]) s = Ok 0
       ∧ knowledge_base (after (process_documents env [f]) s)
         = knowledge_base s).
Proof.
  split_and!.
  - intros path ty. apply load_document_never_raises.
  - intros path ty s e s1 Htry. unfold returned, load_document. run.
    by rewrite Htry.
  - intros f s path s1 Htemp Hload.
    pose proof (file_chunks_load_empty _ _ _ _ _ Htemp Hload) as Hnone.
    pose proof (process_file_spec env f 0 s) as Hf.
    rewrite Hnone in Hf. destruct Hf as [Hn Hkb].
    unfold returned, after at 1. rewrite process_documents_run.
    rewrite for_uploaded_files_cons. cbn [for_uploaded_files].
    change (after (mret ()) ?ls) with ls. rewrite Hn. done.
Qed.

(** The installer is not loaded, and uploading it counts no file. *)
Lemma load_document_total_witness :
  returned (process_documents quiet_env [setup_exe])
    (new_RAGSystem quiet_env empty_world) = Ok 0.
Proof.
  destruct (load_document_total quiet_env) as (_ & _ & Hskip).
  eapply Hskip; vm_compute; reflexivity.
Defined.

(** ** C8: statistics after one file *)

Lemma file_chunks_tagged env f s texts :
  file_chunks env f s = Some texts →
  ∃ texts0, texts = add_metadata (name f) (file_extension f) texts0.
Proof.
  unfold file_chunks. intros H.
  repeat match type of H with
         | match ?x with _ => _ end = _ => destruct x; try done
         end.
  injection H as <-. eauto.
Qed.

Lemma unique_sources_from acc src ty texts :
  foldl (λ (acc : gset string) doc,
           match metadata doc !! "source" with
           | Some s => acc ∪ {[s]}
           | None => acc
           end) acc (add_metadata src ty texts)
  = match texts with [] => acc | _ => acc ∪ {[src]} end.
Proof.
  revert acc. induction texts as [|t ts IH]; intros acc; [done|].
  cbn. rewrite lookup_insert_ne by done. rewrite lookup_insert_eq.
  fold (add_metadata src ty ts). rewrite IH. destruct ts; [done|].
  by rewrite <- (assoc_L (∪)), (idemp_L (∪)).
Qed.

Lemma unique_sources_add_metadata src ty t ts :
  unique_sources (add_metadata src ty (t :: ts)) = {[src]}.
Proof.
  unfold unique_sources. rewrite unique_sources_from.
  by rewrite (left_id_L ∅ (∪)).
Qed.

Lemma stats_with_store s h docs :
  vectorstore (self s) = Some h →
  heap (world s) !! h = Some (Live docs) →
  returned get_knowledge_base_stats s
  = Ok (mkStats (length docs) (elements (unique_sources (documents (self s))))).
Proof.
  intros Hvs Hh. destruct s as [r w].
  unfold get_knowledge_base_stats, vectorstore_collection_count,
    collection_count. run. rewrite Hvs. run. rewrite Hvs. run.
  by rewrite Hh.
Qed.

(** A file is indexed only when the store took its chunks.  With a store
    that refuses an empty batch, as Chroma does, an indexed file has at
    least one chunk. *)
Lemma file_chunks_nonempty env f s texts :
  (∀ c, add_documents_exn env c [] ≠ None) →
  file_chunks env f s = Some texts →
  texts ≠ [].
Proof.
  intros Hstore H Hnil. subst texts. unfold file_chunks in H.
  repeat match type of H with
         | match ?x with _ => _ end = _ => destruct x eqn:?; try done
         end.
  injection H as H.
  match goal with
  | E : add_documents_exn env ?c ?t = None |- _ =>
      rewrite H in E; by apply (Hstore c)
  end.
Qed.

(** C8. After one file that yields N chunks is ingested into a knowledge
    base whose store and [documents] list are empty, [process_documents]
    returns 1 and the statistics report N documents and the file's name
    as the only source.  Here N is at least 1: with no chunk the file is
    ingested only if the store takes an empty batch, which Chroma refuses
    (see [file_chunks_nonempty]). *)
Theorem stats_after_single_ingest env f s h texts :
  vectorstore (self s) = Some h →
  heap (world s) !! h = Some (Live []) →
  documents (self s) = [] →
  file_chunks env f s = Some texts →
  texts ≠ [] →
  returned (process_documents env [f]) s = Ok 1
  ∧ returned get_knowledge_base_stats (after (process_documents env [f]) s)
    = Ok (mkStats (length texts) [name f]).
Proof.
  intros Hvs Hh Hdocs Hchunks Hne.
  pose proof (process_file_spec env f 0 s) as Hf. rewrite Hchunks in Hf.
  destruct Hf as (Hn & Hself & h' & docs & Hvs' & Hh' & Hheap).
  rewrite Hvs in Hvs'. injection Hvs' as <-.
  rewrite Hh in Hh'. injection Hh' as <-.
  apply file_chunks_tagged in Hchunks as [texts0 ->].
  destruct texts0 as [|t ts]; [done|].
  assert (Hrun : process_documents env [f] s
    = (Ok 1, logged Success ("🎉 Successfully processed " +:+ pretty 1
                              +:+ " documents!")
               (after (process_file env f) (0, s)).2)).
  { rewrite process_documents_run, for_uploaded_files_cons.
    cbn [for_uploaded_files]. change (after (mret ()) ?ls) with ls.
    by rewrite Hn. }
  split; [unfold returned; by rewrite Hrun|].
  unfold after at 1. rewrite Hrun. cbn [snd].
  rewrite (stats_with_store _ h
             (add_metadata (name f) (file_extension f) (t :: ts))).
  - unfold logged, on_world. cbn [self]. rewrite Hself.
    cbn [documents set_documents]. rewrite Hdocs, app_nil_l.
    by rewrite unique_sources_add_metadata, elements_singleton.
  - unfold logged, on_world. cbn [self]. by rewrite Hself.
  - unfold logged, on_world. cbn [world heap set_log].
    by rewrite Hheap, lookup_insert_eq.
Qed.

Lemma stats_after_single_ingest_witness :
  returned get_knowledge_base_stats
    (after (process_documents quiet_env [notes_txt])
       (new_RAGSystem quiet_env empty_world))
  = Ok (mkStats 1 ["notes.txt"]).
Proof.
  apply (stats_after_single_ingest quiet_env notes_txt
           (new_RAGSystem quiet_env empty_world) 0 [notes_chunk]);
    try (vm_compute; reflexivity).
  done.
Defined.

(** ** C5: clearing while the persist directory is locked *)

(** Whenever [clear_knowledge_base] returns [True], the store is a new,
    empty collection and the statistics report nothing. *)
Lemma clear_knowledge_base_true env s :
  returned (clear_knowledge_base env) s = Ok true →
  returned get_knowledge_base_stats (after (clear_knowledge_base env) s)
  = Ok (mkStats 0 []).
Proof.
  pose proof (clear_knowledge_base_documents env s) as Hdocs.
  unfold returned at 1. unfold after in *.
  destruct (clear_knowledge_base env s) as [res s1] eqn:Hclear.
  cbn [fst snd] in *. intros ->.
  revert Hclear. unfold clear_knowledge_base. unfold try_except at 1.
  match goal with
  | |- context [match ?body s with _ => _ end] =>
      destruct (body s) as [[b|e] s2] eqn:Hbody
  end.
  - intros [= -> ->].
    apply bind_ok in Hbody as ([] & ? & _ & Hbody).
    apply bind_ok in Hbody as (? & ? & _ & Hbody).
    apply bind_ok in Hbody as ([] & ? & _ & Hbody).
    apply bind_ok in Hbody as ([] & ? & _ & Hbody).
    apply bind_ok in Hbody as ([] & ? & _ & Hbody).
    apply bind_ok in Hbody as ([] & s7 & Hfresh & Hbody).
    apply setup_fresh_vectorstore_ok in Hfresh
      as (h & Hvs & _ & Hheap & _).
    apply bind_ok in Hbody as ([] & s8 & Hlog & Hret).
    injection Hret as <-. injection Hlog as <-.
    rewrite (stats_with_store _ h []).
    + cbn in Hdocs. cbn. by rewrite Hdocs.
    + done.
    + cbn. by rewrite Hheap, lookup_insert_eq.
  - unfold st_error, st, try_except_all, try_except, in_world, modify,
      mbind, M_bind, bind, mret, M_ret, ret. cbn.
    by destruct (setup_fresh_vectorstore env _) as [[[]|?] ?].
Qed.

(** A lock that is gone at the second attempt: the fallback rebuilds the
    store, [clear_knowledge_base] returns [True], nothing is left, and the
    only trace is the warning. *)
Lemma clear_knowledge_base_transient_lock :
  returned (clear_knowledge_base transient_lock_env)
    (indexed_notes transient_lock_env) = Ok true
  ∧ returned get_knowledge_base_stats
      (after (clear_knowledge_base transient_lock_env)
         (indexed_notes transient_lock_env)) = Ok (mkStats 0 [])
  ∧ filter (λ m, m.1 = Error ∨ m.1 = Warning)
      (take 5 (log (world (after (clear_knowledge_base transient_lock_env)
                             (indexed_notes transient_lock_env)))))
    = [(Warning, "⚠️ Could not delete old files, creating fresh database")].
Proof. split_and!; vm_compute; reflexivity. Qed.

(** C5. One chunk is indexed and the persist directory stays locked, so
    that every [shutil.rmtree] raises [PermissionError] (and the store
    refuses [reset], as Chroma does by default).  Then
    [clear_knowledge_base] returns [False]; the fallback
    [setup_fresh_vectorstore] runs [shutil.rmtree] again and raises, the
    failure is reported with [st.error], and the store is still the old
    one: the statistics report one document, not zero. *)
Lemma clear_knowledge_base_locked_directory :
  returned get_knowledge_base_stats (indexed_notes locked_env)
  = Ok (mkStats 1 ["notes.txt"])
  ∧ returned (clear_knowledge_base locked_env) (indexed_notes locked_env)
    = Ok false
  ∧ returned get_knowledge_base_stats
      (after (clear_knowledge_base locked_env) (indexed_notes locked_env))
    = Ok (mkStats 1 [])
  ∧ vectorstore (self (after (clear_knowledge_base locked_env)
                         (indexed_notes locked_env)))
    = vectorstore (self (indexed_notes locked_env))
  ∧ filter (λ m, m.1 = Error)
      (take 5 (log (world (after (clear_knowledge_base locked_env)
                             (indexed_notes locked_env)))))
    = [(Error, "❌ Error setting up fresh vectorstore: "
               +:+ exn_str access_denied);
       (Error, "❌ Error clearing knowledge base: " +:+ exn_str access_denied);
       (Error, "❌ Error setting up fresh vectorstore: "
               +:+ exn_str access_denied)].
Proof. split_and!; vm_compute; reflexivity. Qed.

(** * Further properties of the code *)

(** ** [add_text_document] *)

(** X1. [add_text_document] never raises.  It returns [True] exactly when
    the splitter and the store accept the text; then the same chunks are
    appended to the store's collection and to [documents].  Otherwise it
    returns [False] and the store, the collections and [documents] are as
    before. *)
Theorem add_text_document_outcome env text_content document_name s :
  match text_chunks env text_content document_name s with
  | Some texts =>
      returned (add_text_document env text_content document_name) s = Ok true
      ∧ self (after (add_text_document env text_content document_name) s)
        = set_documents (documents (self s) ++ texts) (self s)
      ∧ ∃ h docs,
          vectorstore (self s) = Some h
          ∧ heap (world s) !! h = Some (Live docs)
          ∧ heap (world (after (add_text_document env text_content
                                  document_name) s))
            = <[h := Live (docs ++ texts)]> (heap (world s))
  | None =>
      returned (add_text_document env text_content document_name) s = Ok false
      ∧ knowledge_base (after (add_text_document env text_content
                                 document_name) s)
        = knowledge_base s
  end.
Proof.
  destruct s as [r w].
  unfold add_text_document, text_chunks, manual_document, knowledge_base,
    split_documents, vectorstore_add_documents, add_documents,
    documents_extend.
  run.
  destruct (split_documents_out env (calls w) _) as [e|texts]; run; [done|].
  split_on (vectorstore r); [|done].
  match goal with
  | |- context [add_documents_exn env ?c ?t] =>
      split_on (add_documents_exn env c t); [split; congruence|]
  end.
  match goal with
  | |- context [heap w !! ?h] =>
      destruct (heap w !! h) as [[old|]|] eqn:Hh; run; rewrite ?Hh; run;
        [|split; congruence..]
  end.
  split_and!; [done..|]. eauto.
Qed.

(** ** Relations that every step of a computation respects *)

Section Steady.
Context {S : Type} (R : relation S) `{!PreOrder R}.

Lemma steady_run {A} (m : M S A) s r s' :
  steady R m → m s = (r, s') → R s s'.
Proof. intros Hm Hrun. specialize (Hm s). unfold after in Hm. by rewrite Hrun in Hm. Qed.

Lemma steady_ret {A} (a : A) : steady R (mret a : M S A).
Proof. by intros s. Qed.

Lemma steady_raise {A} e : steady R (raise e : M S A).
Proof. by intros s. Qed.

Lemma steady_get : steady R (get : M S S).
Proof. by intros s. Qed.

Lemma steady_modify (f : S → S) : (∀ s, R s (f s)) → steady R (modify f).
Proof. intros Hf s. apply Hf. Qed.

Lemma steady_bind {A B} (m : M S A) (k : A → M S B) :
  steady R m → (∀ a, steady R (k a)) → steady R (m ≫= k).
Proof.
  intros Hm Hk s. specialize (Hm s). unfold after in *. run.
  destruct (m s) as [[a|e] s1]; cbn in *; [|done].
  etrans; [exact Hm|]. apply (Hk a s1).
Qed.

Lemma steady_try_except {A} (body : M S A) handler :
  steady R body → (∀ e, steady R (handler e)) →
  steady R (try_except body handler).
Proof.
  intros Hm Hk s. specialize (Hm s). unfold after in *. run.
  destruct (body s) as [[a|e] s1]; cbn in *; [done|].
  etrans; [exact Hm|]. apply (Hk e s1).
Qed.

Lemma steady_try_except_class {A} (body : M S A) C handler :
  steady R body → (∀ e, steady R (handler e)) →
  steady R (try_except_class body C handler).
Proof.
  intros Hm Hk. apply steady_try_except; [done|].
  intros e. case_decide; [done|]. apply steady_raise.
Qed.

Lemma steady_try_except_all {A} (body : M S A) handler :
  steady R body → steady R handler → steady R (try_except_all body handler).
Proof. intros Hm Hk. by apply steady_try_except. Qed.

End Steady.

#[global] Instance in_frame_preorder {L S} (R : relation S) `{!PreOrder R} :
  PreOrder (in_frame (L:=L) R).
Proof.
  split; [intros [l s]; unfold in_frame; reflexivity|].
  intros [] [] [] H1 H2. unfold in_frame in *.
  etrans; [exact H1|exact H2].
Qed.

Lemma steady_lift {L S A} (R : relation S) (m : M S A) :
  steady R m → steady (in_frame (L:=L) R) (lift m).
Proof.
  intros Hm [l s]. specialize (Hm s). unfold after, lift, in_frame in *. cbn.
  by destruct (m s).
Qed.

Lemma steady_get_local {L S} (R : relation S) `{!Reflexive R} :
  steady (in_frame R) (get_local (S:=S) (L:=L)).
Proof. intros s. by unfold in_frame. Qed.

Lemma steady_set_local {L S} (R : relation S) `{!Reflexive R} (l : L) :
  steady (in_frame R) (set_local (S:=S) l).
Proof. intros s. by unfold in_frame. Qed.

Lemma steady_with_local {L S A} (R : relation S) (init : L) (m : M (L * S) A) :
  steady (in_frame R) m → steady R (with_local init m).
Proof.
  intros Hm s. specialize (Hm (init, s)). unfold after, with_local, in_frame in *.
  by destruct (m (init, s)) as [r [l s1]].
Qed.

(** ** Store handles only grow *)

#[global] Instance handles_grow_preorder : PreOrder handles_grow.
Proof.
  split; [intros s; unfold handles_grow; reflexivity|].
  intros s1 s2 s3 H12 H23. unfold handles_grow in *.
  etrans; [exact H12|exact H23].
Qed.

Lemma handles_grow_in_world {A} (m : M World A) :
  world_grows m → steady handles_grow (in_world m).
Proof.
  intros Hm [r w]. specialize (Hm w). unfold after, in_world, handles_grow in *.
  cbn. by destruct (m w).
Qed.

Lemma handles_grow_in_world_frame {L A} (m : M World A) :
  world_grows m → steady (in_frame (L:=L) handles_grow) (in_world m).
Proof.
  intros Hm [l [r w]]. specialize (Hm w).
  unfold after, in_world, handles_grow, in_frame in *.
  cbn. by destruct (m w).
Qed.

Lemma world_grows_extern env_exn c : world_grows (extern c env_exn).
Proof. intros w. unfold after, extern. by destruct (env_exn (calls w)). Qed.

Lemma world_grows_extern_out {A} (out : list Call → Exn + A) c :
  world_grows (extern_out c out).
Proof. intros w. unfold after, extern_out. by destruct (out (calls w)). Qed.

Lemma world_grows_st lvl msg : world_grows (st lvl msg).
Proof. by intros w. Qed.

Lemma world_grows_os_path_exists path : world_grows (os_path_exists path).
Proof. by intros w. Qed.

Lemma world_grows_shutil_rmtree env path :
  world_grows (shutil_rmtree env path).
Proof.
  intros w. unfold after, shutil_rmtree. run.
  by destruct (shutil_rmtree_exn env (calls w) path).
Qed.

Lemma world_grows_Chroma env path : world_grows (Chroma env path).
Proof.
  intros w. unfold after, Chroma. run.
  destruct (Chroma_exn env (calls w) path); run; [done|].
  destruct (dirs w !! path); run; [done|].
  rewrite dom_insert_L. apply union_subseteq_r.
Qed.

Lemma world_grows_client_reset env h : world_grows (client_reset env h).
Proof.
  intros w. unfold after, client_reset. run.
  destruct (client_reset_exn env (calls w)); run; [done|].
  rewrite dom_insert_L. apply union_subseteq_r.
Qed.

Lemma world_grows_collection_count h : world_grows (collection_count h).
Proof.
  intros w. unfold after, collection_count. run.
  by destruct (heap w !! h) as [[]|].
Qed.

Lemma world_grows_add_documents env h texts :
  world_grows (add_documents env h texts).
Proof.
  intros w. unfold after, add_documents. run.
  destruct (add_documents_exn env (calls w) texts); run; [done|].
  destruct (heap w !! h) as [[]|]; run; try done.
  rewrite dom_insert_L. apply union_subseteq_r.
Qed.

Lemma world_grows_qa_chain_invoke env h question :
  world_grows (qa_chain_invoke env h question).
Proof.
  intros w. unfold after, qa_chain_invoke. run.
  by destruct (qa_chain_invoke_out env (calls w) _ question).
Qed.

Lemma world_grows_NamedTemporaryFile env suffix data :
  world_grows (NamedTemporaryFile env suffix data).
Proof.
  intros w. unfold after, NamedTemporaryFile. run.
  by destruct (NamedTemporaryFile_out env (calls w) suffix data).
Qed.

Lemma world_grows_loader_load env l path : world_grows (loader_load env l path).
Proof.
  intros w. unfold after, loader_load. run.
  by destruct (loader_load_out env (calls w) l path _).
Qed.

Lemma world_grows_split_documents env docs :
  world_grows (split_documents env docs).
Proof.
  intros w. unfold after, split_documents. run.
  by destruct (split_documents_out env (calls w) docs).
Qed.

Lemma world_grows_os_unlink env path : world_grows (os_unlink env path).
Proof.
  intros w. unfold after, os_unlink. run.
  by destruct (os_unlink_exn env (calls w) path).
Qed.

Create HintDb grows discriminated.
#[global] Hint Resolve world_grows_extern world_grows_extern_out
  world_grows_st world_grows_os_path_exists world_grows_shutil_rmtree
  world_grows_Chroma world_grows_client_reset world_grows_collection_count
  world_grows_add_documents world_grows_qa_chain_invoke
  world_grows_NamedTemporaryFile world_grows_loader_load
  world_grows_split_documents world_grows_os_unlink : grows.

Lemma handles_grow_st lvl msg : steady handles_grow (st lvl msg).
Proof. intros [r w]. unfold handles_grow. run. reflexivity. Qed.

Lemma handles_grow_st_frame {L} lvl msg :
  steady (in_frame (L:=L) handles_grow) (st lvl msg).
Proof. intros [l [r w]]. unfold in_frame, handles_grow. run. reflexivity. Qed.

Lemma handles_grow_on_self f s : handles_grow s (on_self f s).
Proof. unfold handles_grow. reflexivity. Qed.

(** Decompose a goal [steady R m] along the structure of [m], for the
    relation [R]. *)
Ltac steady_step R :=
  first
    [ apply (steady_ret R) | apply (steady_raise R) | apply (steady_get R)
    | apply (steady_bind R); [|intros ?]
    | apply (steady_try_except_all R)
    | apply (steady_try_except_class R); [|intros ?]
    | apply (steady_try_except R); [|intros ?]
    | match goal with
      | |- steady _ (match ?x with _ => _ end) => destruct x
      end ].

Ltac grows_auto :=
  repeat first
    [ apply handles_grow_st
    | apply handles_grow_st_frame
    | apply steady_modify; intros ?; apply handles_grow_on_self
    | apply (steady_get_local handles_grow)
    | apply (steady_set_local handles_grow)
    | apply handles_grow_in_world; solve [auto with grows]
    | apply handles_grow_in_world_frame; solve [auto with grows]
    | apply steady_with_local
    | steady_step handles_grow
    | steady_step (in_frame (L:=nat) handles_grow) ].

Section HandlesGrow.
Variable env : Env.

Lemma handles_grow_setup_fresh_vectorstore :
  steady handles_grow (setup_fresh_vectorstore env).
Proof. unfold setup_fresh_vectorstore, st_info, st_error. grows_auto. Qed.

Lemma handles_grow_load_document path ty :
  steady handles_grow (load_document env path ty).
Proof. unfold load_document, load_document_try, st_error. grows_auto. Qed.

Lemma handles_grow_vectorstore_add_documents texts :
  steady handles_grow (vectorstore_add_documents env texts).
Proof. unfold vectorstore_add_documents. grows_auto. Qed.

Lemma handles_grow_documents_extend texts :
  steady handles_grow (documents_extend texts).
Proof. unfold documents_extend. grows_auto. Qed.

Lemma handles_grow_vectorstore_collection_count :
  steady handles_grow vectorstore_collection_count.
Proof. unfold vectorstore_collection_count. grows_auto. Qed.

Lemma handles_grow_process_file f :
  steady (in_frame handles_grow) (process_file env f).
Proof.
  unfold process_file, st_success, st_error.
  repeat first
    [ apply steady_lift; first
        [ apply handles_grow_load_document
        | apply handles_grow_vectorstore_add_documents
        | apply handles_grow_documents_extend ]
    | grows_auto ].
Qed.

Lemma handles_grow_for_uploaded_files files :
  steady (in_frame handles_grow) (for_uploaded_files env files).
Proof.
  induction files as [|f rest IH]; cbn [for_uploaded_files].
  - apply (steady_ret (in_frame handles_grow)).
  - apply (steady_bind (in_frame handles_grow));
      [apply handles_grow_process_file|by intros _].
Qed.

Lemma handles_grow_process_documents files :
  steady handles_grow (process_documents env files).
Proof.
  unfold process_documents, st_success. apply steady_with_local.
  apply (steady_bind (in_frame handles_grow));
    [apply handles_grow_for_uploaded_files|intros _].
  grows_auto.
Qed.

Lemma handles_grow_add_text_document text doc_name :
  steady handles_grow (add_text_document env text doc_name).
Proof.
  unfold add_text_document, st_success, st_error.
  repeat first
    [ apply handles_grow_vectorstore_add_documents
    | apply handles_grow_documents_extend
    | grows_auto ].
Qed.

Lemma handles_grow_query_knowledge_base question :
  steady handles_grow (query_knowledge_base env question).
Proof.
  unfold query_knowledge_base, query_knowledge_base_try, st_error.
  repeat first [ apply handles_grow_vectorstore_collection_count | grows_auto ].
Qed.

Lemma handles_grow_get_knowledge_base_stats :
  steady handles_grow get_knowledge_base_stats.
Proof.
  unfold get_knowledge_base_stats, st_error.
  repeat first [ apply handles_grow_vectorstore_collection_count | grows_auto ].
Qed.

Lemma handles_grow_clear_knowledge_base :
  steady handles_grow (clear_knowledge_base env).
Proof.
  unfold clear_knowledge_base, time_sleep, st_success, st_warning, st_error,
    st_info.
  repeat first [ apply handles_grow_setup_fresh_vectorstore | grows_auto ].
Qed.

End HandlesGrow.

(** The QA chain of a constructed object is bound to a store that
    exists. *)
Lemma reachable_qa_chain_store env s :
  reachable env s →
  ∃ q, qa_chain (self s) = Some q ∧ q ∈ dom (heap (world s)).
Proof.
  induction 1 as [api_key directory w r w' Hinit|s s' _ (q & Hq & Hdom) Hstep].
  - apply init_ok in Hinit as (h & -> & _ & Hheap & _). exists h.
    split; [done|]. cbn. rewrite Hheap, dom_insert_L. apply elem_of_union_l.
    by apply elem_of_singleton.
  - exists q. destruct Hstep;
      match goal with
      | |- qa_chain (self (after ?m ?s0)) = _ ∧ _ =>
          assert (Hk : keeps (qa_chain ∘ self) m)
            by (first [ apply keeps_process_documents
                      | apply keeps_add_text_document
                      | apply keeps_query_knowledge_base
                      | apply keeps_get_knowledge_base_stats
                      | apply keeps_clear_knowledge_base ]; done);
          assert (Hg : steady handles_grow m)
            by (first [ apply handles_grow_process_documents
                      | apply handles_grow_add_text_document
                      | apply handles_grow_query_knowledge_base
                      | apply handles_grow_get_knowledge_base_stats
                      | apply handles_grow_clear_knowledge_base ]);
          specialize (Hk s0); specialize (Hg s0); cbn in Hk;
          split; [by rewrite Hk|by apply Hg]
      end.
Qed.

(** ** The QA chain after a clear *)

Lemma step_keeps_qa_chain env s s' :
  step env s s' → qa_chain (self s') = qa_chain (self s).
Proof.
  destruct 1;
    match goal with
    | |- qa_chain (self (after ?m ?s0)) = _ =>
        assert (Hk : keeps (qa_chain ∘ self) m)
          by (first [ apply keeps_process_documents
                    | apply keeps_add_text_document
                    | apply keeps_query_knowledge_base
                    | apply keeps_get_knowledge_base_stats
                    | apply keeps_clear_knowledge_base ]; done);
        apply (Hk s0)
    end.
Qed.

Lemma steps_keep_qa_chain env s s' :
  rtc (step env) s s' → qa_chain (self s') = qa_chain (self s).
Proof.
  induction 1 as [|s1 s2 s3 Hstep _ IH]; [done|].
  by rewrite IH, (step_keeps_qa_chain _ _ _ Hstep).
Qed.

(** A clear that returns [True] installs a store that did not exist. *)
Lemma clear_knowledge_base_new_store env s :
  returned (clear_knowledge_base env) s = Ok true →
  ∃ h, vectorstore (self (after (clear_knowledge_base env) s)) = Some h
     ∧ (h ∉ dom (heap (world s)))
     ∧ heap (world (after (clear_knowledge_base env) s)) !! h = Some (Live []).
Proof.
  unfold returned at 1. unfold after.
  destruct (clear_knowledge_base env s) as [res s1] eqn:Hclear.
  cbn [fst snd]. intros ->.
  revert Hclear. unfold clear_knowledge_base. unfold try_except at 1.
  match goal with
  | |- context [match ?body s with _ => _ end] =>
      destruct (body s) as [[b|e] s2] eqn:Hbody
  end.
  - intros [= -> ->].
    apply bind_ok in Hbody as ([] & s3 & H1 & Hbody).
    apply bind_ok in Hbody as (? & s4 & H2 & Hbody).
    apply bind_ok in Hbody as ([] & s5 & H3 & Hbody).
    apply bind_ok in Hbody as ([] & s6 & H4 & Hbody).
    apply bind_ok in Hbody as ([] & s7 & H5 & Hbody).
    apply bind_ok in Hbody as ([] & s8 & Hfresh & Hbody).
    apply bind_ok in Hbody as ([] & s9 & Hlog & Hret).
    injection Hret as <-. injection Hlog as <-.
    apply setup_fresh_vectorstore_ok in Hfresh
      as (h & Hvs & Hnew & Hheap & _).
    assert (Hgrow : handles_grow s s7).
    { etrans; [eapply (steady_run handles_grow), H1|].
      { grows_auto. }
      etrans; [eapply (steady_run handles_grow), H2|].
      { grows_auto. }
      etrans; [eapply (steady_run handles_grow), H3|].
      { grows_auto. }
      etrans; [eapply (steady_run handles_grow), H4|].
      { unfold time_sleep. grows_auto. }
      eapply (steady_run handles_grow), H5.
      unfold st_success, st_warning. grows_auto. }
    exists h. split_and!; [done| |].
    + intros Hin. by apply Hnew, Hgrow.
    + cbn. by rewrite Hheap, lookup_insert_eq.
  - unfold st_error, st, try_except_all, try_except, in_world, modify,
      mbind, M_bind, bind, mret, M_ret, ret. cbn.
    by destruct (setup_fresh_vectorstore env _) as [[[]|?] ?].
Qed.

(** X2. [setup_qa_chain] runs in the constructor only.  In every session
    the retriever of the QA chain stays bound to the store the constructor
    created, whatever methods are called afterwards; and after a
    [clear_knowledge_base] that returns [True] the object's store is a new,
    empty collection that is not the chain's store. *)
Theorem clear_knowledge_base_keeps_retriever env s :
  reachable env s →
  (∀ s', rtc (step env) s s' → qa_chain (self s') = qa_chain (self s))
  ∧ (returned (clear_knowledge_base env) s = Ok true →
     ∃ q h,
       qa_chain (self (after (clear_knowledge_base env) s)) = Some q
       ∧ vectorstore (self (after (clear_knowledge_base env) s)) = Some h
       ∧ h ≠ q
       ∧ heap (world (after (clear_knowledge_base env) s)) !! h
         = Some (Live [])).
Proof.
  intros (q & Hq & Hdom)%reachable_qa_chain_store.
  split; [intros s'; apply (steps_keep_qa_chain env)|].
  intros (h & Hvs & Hnew & Hlive)%clear_knowledge_base_new_store.
  exists q, h. split_and!; try done.
  - rewrite <- Hq. apply (step_keeps_qa_chain env). constructor.
  - by intros ->.
Qed.

(** On a new object with [notes.txt] indexed, a clear leaves the chain on
    the constructor's store and installs another one. *)
Lemma clear_knowledge_base_keeps_retriever_witness :
  ∃ q h,
    qa_chain (self (after (clear_knowledge_base quiet_env)
                      (indexed_notes quiet_env))) = Some q
    ∧ vectorstore (self (after (clear_knowledge_base quiet_env)
                           (indexed_notes quiet_env))) = Some h
    ∧ h ≠ q.
Proof.
  destruct (clear_knowledge_base_keeps_retriever quiet_env
              (indexed_notes quiet_env)) as [_ Hclear].
  - unfold indexed_notes. eapply reachable_step; [|constructor].
    unfold new_RAGSystem.
    destruct (__init__ quiet_env "key" "./chroma_db" empty_world)
      as [[r|e] w'] eqn:E.
    + eapply reachable_init, E.
    + exfalso. vm_compute in E. discriminate.
  - destruct Hclear as (q & h & Hq & Hh & Hne & _);
      [vm_compute; reflexivity|].
    by exists q, h.
Defined.

(** ** The constructor when a step fails *)

Lemma calls_since_app w w' new :
  calls w' = (new ++ calls w)%list → calls_since w w' = new.
Proof.
  intros H. unfold calls_since. rewrite H, length_app.
  replace (length new + length (calls w) - length (calls w)) with (length new)
    by lia.
  by rewrite take_app_length.
Qed.

(** X3. When the embeddings model cannot be loaded, the constructor
    reports the error and raises that exception before it looks at the
    persist directory: the directories and collections are as before and
    no call reaches the index. *)
Theorem init_embeddings_failure env api_key directory w e :
  genai_configure_exn env (calls w) api_key = None →
  HuggingFaceEmbeddings_exn env (call_genai_configure api_key :: calls w)
  = Some e →
  ∃ w', __init__ env api_key directory w = (Raise e, w')
      ∧ dirs w' = dirs w
      ∧ heap w' = heap w
      ∧ log w' = (Error, "❌ Error loading embeddings: " +:+ exn_str e) :: log w
      ∧ existsb touches_index (calls_since w w') = false.
Proof.
  intros Hconf Hemb. unfold __init__, setup_embeddings. run.
  rewrite Hconf. run. rewrite Hemb. run.
  eexists. split_and!; try done.
  by rewrite (calls_since_app _ _
                [call_HuggingFaceEmbeddings; call_genai_configure api_key]).
Qed.

Lemma init_embeddings_failure_witness :
  ∃ w', __init__ no_embeddings_env "key" "./chroma_db" stale_world
        = (Raise (mkExn OSError "model not found"), w')
      ∧ heap w' = heap stale_world.
Proof.
  destruct (init_embeddings_failure no_embeddings_env "key" "./chroma_db"
              stale_world (mkExn OSError "model not found"))
    as (w' & Hraise & _ & Hheap & _); [reflexivity..|].
  by exists w'.
Defined.

(** X4. The persisted index is deleted before the QA chain is built: when
    the first three steps work and building the chain fails, the
    constructor raises that exception, no object exists, and the persist
    directory holds a new, empty collection instead of the one that was
    there. *)
Theorem init_chain_failure env api_key directory w e :
  (∀ c, genai_configure_exn env c api_key = None) →
  (∀ c, HuggingFaceEmbeddings_exn env c = None) →
  (∀ c, shutil_rmtree_exn env c directory = None) →
  (∀ c, Chroma_exn env c directory = None) →
  (∀ c, ChatGoogleGenerativeAI_exn env c = Some e) →
  ∃ w' h, __init__ env api_key directory w = (Raise e, w')
        ∧ dirs w' !! directory = Some h
        ∧ (h ∉ dom (heap w))
        ∧ heap w' !! h = Some (Live []).
Proof.
  intros Hconf Hemb Hrm Hchroma Hllm.
  unfold __init__, setup_embeddings, setup_fresh_vectorstore, setup_qa_chain,
    os_path_exists, shutil_rmtree, Chroma.
  run. rewrite Hconf. run. rewrite Hemb. run.
  case_bool_decide as Hdir; run; rewrite ?Hrm; run; rewrite Hchroma; run.
  - rewrite lookup_delete_eq. run. rewrite Hllm. run.
    eexists _, _. split_and!; [done| |apply is_fresh|];
      cbn; by rewrite lookup_insert_eq.
  - apply eq_None_not_Some in Hdir. rewrite Hdir.
    run. rewrite Hllm. run.
    eexists _, _. split_and!; [done| |apply is_fresh|];
      cbn; by rewrite lookup_insert_eq.
Qed.

Lemma init_chain_failure_witness :
  ∃ w' h, __init__ no_chain_env "key" "./chroma_db" stale_world
          = (Raise (mkExn ValueError "API key not valid"), w')
        ∧ dirs w' !! "./chroma_db" = Some h
        ∧ h ≠ 7.
Proof.
  destruct (init_chain_failure no_chain_env "key" "./chroma_db" stale_world
              (mkExn ValueError "API key not valid"))
    as (w' & h & Hraise & Hdir & Hnew & _); [done..|].
  exists w', h. split_and!; [done..|].
  intros ->. apply Hnew. vm_compute. reflexivity.
Defined.

(** ** [setup_vectorstore], the method that resumes *)

(** X5. [setup_vectorstore] never removes the persist directory.  When
    the directory holds a collection and Chroma opens it, the object's store
    is that collection with its documents, the directories and the
    collections are unchanged, and the count reported is the number of
    persisted documents. *)
Theorem setup_vectorstore_resumes env s h docs :
  dirs (world s) !! persist_directory (self s) = Some h →
  heap (world s) !! h = Some (Live docs) →
  Chroma_exn env (calls (world s)) (persist_directory (self s)) = None →
  ∃ s', setup_vectorstore env s = (Ok tt, s')
      ∧ vectorstore (self s') = Some h
      ∧ heap (world s') = heap (world s)
      ∧ dirs (world s') = dirs (world s)
      ∧ existsb is_rmtree (calls_since (world s) (world s')) = false
      ∧ log (world s')
        = (Info, "📚 Loaded existing knowledge base with "
                 +:+ pretty (length docs) +:+ " documents")
          :: log (world s).
Proof.
  intros Hdir Hh Hchroma. destruct s as [r w]. cbn in *.
  unfold setup_vectorstore, os_path_exists, Chroma,
    vectorstore_collection_count, collection_count.
  run. rewrite bool_decide_eq_true_2 by (by rewrite Hdir).
  run. rewrite Hchroma. run. rewrite Hdir. run. rewrite Hh. run.
  eexists. split_and!; try done.
  by rewrite (calls_since_app _ _
                [call_collection_count h; call_Chroma (persist_directory r)]).
Qed.

Lemma setup_vectorstore_resumes_witness :
  ∃ s', setup_vectorstore quiet_env
          (mkState (mkRAGSystem "key" "./chroma_db" true None None [])
             stale_world) = (Ok tt, s')
      ∧ vectorstore (self s') = Some 7
      ∧ heap (world s') = heap stale_world.
Proof.
  destruct (setup_vectorstore_resumes quiet_env
              (mkState (mkRAGSystem "key" "./chroma_db" true None None [])
                 stale_world) 7 [old_chunk 1; old_chunk 2])
    as (s' & Hrun & Hvs & Hheap & _); [vm_compute; reflexivity..|].
  by exists s'.
Defined.

(** ** The temporary copy of an uploaded file *)

#[global] Arguments calls_since : simpl never.

Ltac strip_suffix l suf :=
  lazymatch l with
  | suf => constr:(@nil Call)
  | ?c :: ?r => let r' := strip_suffix r suf in constr:(c :: r')
  end.

(** Compute [calls_since w w'] when the history of [w'] extends that of
    [w] by explicit calls. *)
Ltac calls_since_simpl :=
  match goal with
  | |- context [calls_since ?w ?w'] =>
      let l := eval cbn in (calls w') in
      let suf := eval cbn in (calls w) in
      let new := strip_suffix l suf in
      rewrite (calls_since_app w w' new) by reflexivity
  end.

(** X6. The temporary copy of an uploaded file is removed only at the end
    of the [try] block.  For a file that was copied and loaded into at
    least one document: when splitting or indexing fails, [os.unlink] is not
    called and the copy stays on disk; when the file is indexed,
    [os.unlink] is called, and if it works the copy is gone. *)
Theorem process_file_temp_file env f s path l d docs :
  NamedTemporaryFile_out env (calls (world s)) (file_suffix f) (getvalue f)
  = inr path →
  supported_loader (file_extension f) = Some l →
  loader_load_out env
    (call_NamedTemporaryFile (file_suffix f) :: calls (world s)) l path
    (Some (getvalue f)) = inr (d :: docs) →
  (file_chunks env f s = None →
   files (world (after_file env f s)) !! path = Some (getvalue f)
   ∧ existsb is_unlink
       (calls_since (world s) (world (after_file env f s))) = false)
  ∧ (is_Some (file_chunks env f s) →
     existsb is_unlink
       (calls_since (world s) (world (after_file env f s))) = true
     ∧ ((∀ c, os_unlink_exn env c path = None) →
        files (world (after_file env f s)) !! path = None)).
Proof.
  intros Htemp Hloader Hload. destruct s as [r w].
  unfold after_file, process_file, file_chunks, NamedTemporaryFile,
    file_suffix, file_extension, split_documents,
    vectorstore_add_documents, add_documents, documents_extend, os_unlink
    in *.
  cbn [world calls self] in *. run.
  rewrite Htemp. run. rewrite load_document_run. cbn. rewrite lookup_insert_eq.
  rewrite Hloader. run. rewrite Hload. run.
  destruct (split_documents_out env _ _) as [e|texts]; run.
  { split; [intros _|by intros []]. split; [by rewrite lookup_insert_eq|].
    by calls_since_simpl. }
  split_on (vectorstore r).
  2:{ split; [intros _|by intros []]. split; [by rewrite lookup_insert_eq|].
      by calls_since_simpl. }
  match goal with
  | |- context [add_documents_exn env ?c ?t] =>
      split_on (add_documents_exn env c t)
  end.
  { split; [intros _|by intros []]. split; [by rewrite lookup_insert_eq|].
    by calls_since_simpl. }
  match goal with
  | |- context [heap w !! ?h] =>
      destruct (heap w !! h) as [[old|]|] eqn:Hh; run; rewrite ?Hh; run
  end.
  2,3: split; [intros _|by intros []];
       (split; [by rewrite lookup_insert_eq|by calls_since_simpl]).
  split; [done|intros _].
  match goal with
  | |- context [os_unlink_exn env ?c path] =>
      destruct (os_unlink_exn env c path) as [e|] eqn:Hunlink; run
  end.
  - split; [by calls_since_simpl|]. intros Hall. by rewrite Hall in Hunlink.
  - split; [by calls_since_simpl|]. intros _. by rewrite lookup_delete_eq.
Qed.

(** The splitter is broken: the copy of [notes.txt] is left in the
    temporary directory. *)
Lemma process_file_temp_file_witness :
  files (world (after_file no_splitter_env notes_txt
                  (new_RAGSystem no_splitter_env empty_world)))
    !! "/tmp/tmp5.txt"
  = Some "Paris is the capital of France.".
Proof.
  apply (process_file_temp_file no_splitter_env notes_txt
           (new_RAGSystem no_splitter_env empty_world) "/tmp/tmp5.txt"
           TextLoader
           (mkDocument "Paris is the capital of France."
              {["source" := "/tmp/tmp5.txt"]}) []);
    vm_compute; reflexivity.
Defined.

(** ** The sources that the statistics list *)

Lemma elem_of_unique_sources_from (acc : gset string) docs x :
  x ∈ foldl (λ (acc : gset string) doc,
               match metadata doc !! "source" with
               | Some src => acc ∪ {[src]}
               | None => acc
               end) acc docs
  ↔ x ∈ acc ∨ ∃ d, d ∈ docs ∧ metadata d !! "source" = Some x.
Proof.
  revert acc. induction docs as [|d docs IH]; intros acc; cbn.
  - split; [by left|]. intros [?|(d & Hd & _)]; [done|].
    by apply elem_of_nil in Hd.
  - rewrite IH. split.
    + intros [Hacc|(d' & Hd' & Hsrc)].
      * destruct (metadata d !! "source") as [src|] eqn:Hsrc; [|by left].
        apply elem_of_union in Hacc as [?|Hx]; [by left|].
        apply elem_of_singleton in Hx as ->.
        right. exists d. split; [apply list_elem_of_here|done].
      * right. exists d'. split; [by apply list_elem_of_further|done].
    + intros [Hacc|(d' & Hd' & Hsrc)].
      * left. destruct (metadata d !! "source"); [|done].
        by apply elem_of_union_l.
      * apply elem_of_cons in Hd' as [->|Hd'].
        -- left. rewrite Hsrc. apply elem_of_union_r. by apply elem_of_singleton.
        -- right. by exists d'.
Qed.

Lemma elem_of_unique_sources docs x :
  x ∈ unique_sources docs
  ↔ ∃ d, d ∈ docs ∧ metadata d !! "source" = Some x.
Proof.
  unfold unique_sources. rewrite elem_of_unique_sources_from.
  split; [intros [H|H]; [by apply not_elem_of_empty in H|done]|by right].
Qed.

(** X7. When the store is a live collection, the statistics report the
    number of documents in the store and, without repetition, exactly the
    values of the ["source"] key of the chunks in the in-memory
    [documents] list; a chunk without that key contributes nothing. *)
Theorem stats_sources s h docs :
  vectorstore (self s) = Some h →
  heap (world s) !! h = Some (Live docs) →
  ∃ stats, returned get_knowledge_base_stats s = Ok stats
         ∧ total_documents stats = length docs
         ∧ NoDup (sources stats)
         ∧ ∀ x, x ∈ sources stats
                ↔ ∃ d, d ∈ documents (self s)
                       ∧ metadata d !! "source" = Some x.
Proof.
  intros Hvs Hh. eexists. split; [by apply (stats_with_store s h docs)|].
  cbn. split_and!; [done|apply NoDup_elements|].
  intros x. by rewrite elem_of_elements, elem_of_unique_sources.
Qed.

Lemma stats_sources_witness :
  ∃ stats, returned get_knowledge_base_stats (indexed_notes quiet_env)
           = Ok stats
         ∧ total_documents stats = 1
         ∧ NoDup (sources stats).
Proof.
  destruct (stats_sources (indexed_notes quiet_env) 0 [notes_chunk])
    as (stats & Hret & Htotal & Hnodup & _); [vm_compute; reflexivity..|].
  by exists stats.
Defined.

(** ** [handle_query] for a real question *)

Lemma query_knowledge_base_returns env question :
  never_raises (query_knowledge_base env question).
Proof. unfold query_knowledge_base, st_error. never_raises_auto. Qed.

(** X8. For a question that is not blank, with a RAG system in the
    session, [handle_query] never raises and appends exactly two messages:
    the user's question and one assistant message that carries the answer
    and the source documents [query_knowledge_base] returned.  Speaking the
    answer cannot change that: a text-to-speech failure only logs a
    warning. *)
Theorem handle_query_appends_answer env question tts_method s r :
  PyStr.truthy (PyStr.strip question) = true →
  rag_system (session_state s) = Some r →
  ∃ response,
    returned (query_knowledge_base env question) (mkState r (app_world s))
    = Ok response
    ∧ returned (handle_query env question tts_method) s = Ok tt
    ∧ messages (session_state (after (handle_query env question tts_method) s))
      = (messages (session_state s)
         ++ [mkMessage "user" question None;
             mkMessage "assistant" (answer response)
               (Some (qr_source_documents response))])%list
    ∧ rag_system (session_state (after (handle_query env question tts_method) s))
      = Some (self (after (query_knowledge_base env question)
                      (mkState r (app_world s)))).
Proof.
  intros Hq Hrag.
  destruct (query_knowledge_base_returns env question (mkState r (app_world s)))
    as [response Hresp].
  exists response. split; [done|].
  destruct s as [[msgs rs vh ve] w]. cbn in Hrag. subst rs.
  unfold handle_query, messages_append, on_rag_system. rewrite Hq.
  unfold returned, after in *. run.
  destruct (query_knowledge_base env question _) as [[resp|e] s1]; [|done].
  cbn in Hresp. injection Hresp as ->. run.
  destruct (vh && ve); run.
  - destruct (speak_text_exn env _ _ _); run;
      by rewrite <- app_assoc.
  - by rewrite <- app_assoc.
Qed.

Lemma handle_query_appends_answer_witness :
  length (messages (session_state
            (after (handle_query quiet_env "What is the capital of France?"
                      "Offline (pyttsx3)")
               (app_with_notes quiet_env)))) = 2.
Proof.
  destruct (handle_query_appends_answer quiet_env
              "What is the capital of France?" "Offline (pyttsx3)"
              (app_with_notes quiet_env) (self (indexed_notes quiet_env)))
    as (response & _ & _ & Hmsgs & _); [reflexivity..|].
  by rewrite Hmsgs.
Defined.

(** X9. For a question that is not blank, without a RAG system in the
    session, [handle_query] still appends the user's question to the chat,
    reports that the system is not initialised, appends no assistant
    message and makes no collaborator call. *)
Theorem handle_query_without_rag_system env question tts_method s :
  PyStr.truthy (PyStr.strip question) = true →
  rag_system (session_state s) = None →
  handle_query env question tts_method s
  = (Ok tt,
     mkAppState
       (mkSession (messages (session_state s)
                   ++ [mkMessage "user" question None])
          None (voice_handler (session_state s))
          (voice_enabled (session_state s)))
       (set_log
          ((Error,
            "❌ RAG system not initialized. Please provide Google API key.")
           :: log (app_world s))
          (app_world s))).
Proof.
  intros Hq Hrag. destruct s as [[msgs rs vh ve] w]. cbn in Hrag. subst rs.
  unfold handle_query, messages_append. rewrite Hq. by run.
Qed.

Lemma handle_query_without_rag_system_witness :
  messages (session_state
    (after (handle_query quiet_env "Hello?" "Offline (pyttsx3)")
       (mkAppState (mkSession [] None false false) empty_world)))
  = [mkMessage "user" "Hello?" None].
Proof.
  unfold after.
  by rewrite (handle_query_without_rag_system quiet_env "Hello?"
                "Offline (pyttsx3)"
                (mkAppState (mkSession [] None false false) empty_world)).
Defined.

(** ** [process_uploaded_files] *)

Lemma process_documents_result env files s :
  ∃ s', process_documents env files s = (Ok (ingested_count env files s), s')
      ∧ documents (self s')
        = (documents (self s) ++ ingested_chunks env files s)%list.
Proof.
  destruct (for_uploaded_files_spec env files 0 s) as [Hn Hdocs].
  rewrite process_documents_run, Hn. eexists. split; [done|].
  by destruct (_ <? _)%nat.
Qed.

(** X10. Uploads are recognised by their names only: when the names of the
    uploaded files are the list remembered in [processed_files],
    [process_uploaded_files] does nothing at all, whatever the content of
    the files. *)
Theorem process_uploaded_files_same_names env files s :
  processed_files s = Some (name <$> files) →
  process_uploaded_files env files s = (Ok tt, s).
Proof.
  intros Hsame. destruct s as [[[msgs rs vh ve] w] pf]. cbn in Hsame. subst pf.
  unfold process_uploaded_files. run.
  destruct files as [|f files]; [done|]. destruct rs as [r|]; [|done].
  run. by rewrite bool_decide_eq_false_2 by (by intros []).
Qed.

(** [notes.txt] was processed; a file of that name with another content is
    uploaded. *)
Lemma process_uploaded_files_same_names_witness :
  process_uploaded_files quiet_env
    [mkUploadedFile "notes.txt" "Berlin is the capital of Germany."]
    (mkUploadState (app_with_notes quiet_env) (Some ["notes.txt"]))
  = (Ok tt, mkUploadState (app_with_notes quiet_env) (Some ["notes.txt"])).
Proof. by apply process_uploaded_files_same_names. Defined.

(** X11. When the names differ from [processed_files] (or nothing was
    remembered yet) and a RAG system exists, every uploaded file is handed
    to [process_documents], also the files that were indexed before: the
    object's [documents] gain the chunks of the whole list.  The names are
    remembered exactly when at least one file was indexed; otherwise the
    next run tries all files again. *)
Theorem process_uploaded_files_new_names env f files s r :
  rag_system (session_state (app_state s)) = Some r →
  processed_files s ≠ Some (name <$> f :: files) →
  returned (process_uploaded_files env (f :: files)) s = Ok tt
  ∧ processed_files (after (process_uploaded_files env (f :: files)) s)
    = (if (0 <? ingested_count env (f :: files)
                  (mkState r (app_world (app_state s))))%nat
       then Some (name <$> f :: files)
       else Some (default [] (processed_files s)))
  ∧ ∃ r', rag_system (session_state (app_state
            (after (process_uploaded_files env (f :: files)) s))) = Some r'
        ∧ documents r'
          = (documents r
             ++ ingested_chunks env (f :: files)
                  (mkState r (app_world (app_state s))))%list.
Proof.
  intros Hrag Hnew. destruct s as [[[msgs rs vh ve] w] pf]. cbn in Hrag, Hnew.
  subst rs.
  destruct (process_documents_result env (f :: files) (mkState r w))
    as ([r1 w1] & Hrun & Hdocs).
  cbn [app_state app_world].
  remember (ingested_count env (f :: files) (mkState r w)) as n eqn:Hn.
  remember (ingested_chunks env (f :: files) (mkState r w)) as chunks.
  unfold process_uploaded_files, set_processed_files, on_app_state,
    on_rag_system.
  run.
  destruct pf as [names|]; run.
  - rewrite bool_decide_eq_true_2 by congruence. run. rewrite Hrun. run.
    destruct n; run; (split_and!; [done..|]); by eexists.
  - rewrite bool_decide_eq_true_2 by done. run. rewrite Hrun. run.
    destruct n; run; (split_and!; [done..|]); by eexists.
Qed.

(** [notes.txt] is indexed and remembered; a second file is added in the
    uploader: both files are ingested and [notes.txt] is indexed twice. *)
Lemma process_uploaded_files_new_names_witness :
  ∃ r', rag_system (session_state (app_state
          (after (process_uploaded_files quiet_env [notes_txt; report_doc])
             (mkUploadState (app_with_notes quiet_env)
                (Some ["notes.txt"]))))) = Some r'
      ∧ length (documents r') = 3.
Proof.
  destruct (process_uploaded_files_new_names quiet_env notes_txt [report_doc]
              (mkUploadState (app_with_notes quiet_env) (Some ["notes.txt"]))
              (self (indexed_notes quiet_env)))
    as (_ & _ & r' & Hrag & Hdocs); [reflexivity|done|].
  exists r'. split; [done|]. rewrite Hdocs. vm_compute. reflexivity.
Defined.

(** ** utils.py: [clean_text] *)

Lemma all_chars_app P s1 s2 :
  all_chars P (s1 +:+ s2) = all_chars P s1 && all_chars P s2.
Proof.
  induction s1 as [|c r IH]; [done|].
  change (all_chars P (String c r +:+ s2))
    with (P c && all_chars P (r +:+ s2)).
  rewrite IH. cbn. by rewrite andb_assoc.
Qed.

Lemma all_chars_mono (P Q : Ascii.ascii → bool) s :
  (∀ c, P c = true → Q c = true) →
  all_chars P s = true → all_chars Q s = true.
Proof.
  intros HPQ. induction s as [|c r IH]; cbn; [done|].
  intros [Hc Hr]%andb_true_iff. by rewrite (HPQ c Hc), IH.
Qed.

Lemma all_chars_lstrip P s :
  all_chars P s = true → all_chars P (PyStr.lstrip s) = true.
Proof.
  induction s as [|c r IH]; cbn; [done|].
  intros H. destruct (PyStr.is_space c); [|done].
  apply IH. by apply andb_true_iff in H as [_ ?].
Qed.

Lemma all_chars_rstrip P s :
  all_chars P s = true → all_chars P (PyStr.rstrip s) = true.
Proof.
  induction s as [|c r IH]; cbn; [done|].
  intros [Hc Hr]%andb_true_iff. specialize (IH Hr).
  destruct (PyStr.rstrip r) as [|c' r'].
  - destruct (PyStr.is_space c); cbn; [done|]. by rewrite Hc.
  - cbn in *. by rewrite Hc, IH.
Qed.

Lemma all_chars_strip P s :
  all_chars P s = true → all_chars P (PyStr.strip s) = true.
Proof. intros H. by apply all_chars_rstrip, all_chars_lstrip. Qed.

Lemma all_chars_remove_nul P s :
  all_chars P s = true → all_chars P (remove_nul s) = true.
Proof.
  induction s as [|c r IH]; cbn; [done|].
  intros [Hc Hr]%andb_true_iff.
  destruct (Ascii.eqb c NUL); cbn; [by apply IH|]. by rewrite Hc, IH.
Qed.

Lemma remove_nul_not_nul s : all_chars not_nul (remove_nul s) = true.
Proof.
  induction s as [|c r IH]; cbn; [done|].
  destruct (Ascii.eqb c NUL) eqn:E; cbn; [done|].
  unfold not_nul at 1. by rewrite E, IH.
Qed.

Lemma remove_nul_id s : all_chars not_nul s = true → remove_nul s = s.
Proof.
  induction s as [|c r IH]; cbn; [done|].
  intros [Hc Hr]%andb_true_iff. unfold not_nul in Hc.
  destruct (Ascii.eqb c NUL); [done|]. by rewrite IH.
Qed.

Lemma str_split_words s : Forall is_word (str_split s).
Proof.
  induction s as [|c r IH]; cbn; [constructor|].
  destruct (PyStr.is_space c) eqn:Hc; [done|].
  assert (Hone : is_word (String c "")).
  { split; [done|]. cbn. unfold not_space at 1. by rewrite Hc. }
  destruct r as [|c' r']; [by apply Forall_singleton|].
  destruct (PyStr.is_space c') eqn:Hc'; [by apply Forall_cons|].
  destruct (str_split (String c' r')) as [|w ws]; [by apply Forall_singleton|].
  apply Forall_cons in IH as [[Hne Hw] Hws]. apply Forall_cons. split; [|done].
  split; [done|]. cbn. unfold not_space at 1. by rewrite Hc, Hw.
Qed.

Lemma all_chars_str_split P s :
  all_chars P s = true → Forall (λ w, all_chars P w = true) (str_split s).
Proof.
  induction s as [|c r IH]; cbn; [constructor|].
  intros [Hc Hr]%andb_true_iff. specialize (IH Hr).
  assert (Hone : all_chars P (String c "") = true) by (cbn; by rewrite Hc).
  destruct (PyStr.is_space c); [done|].
  destruct r as [|c' r']; [by apply Forall_singleton|].
  destruct (PyStr.is_space c'); [by apply Forall_cons|].
  destruct (str_split (String c' r')) as [|w ws]; [by apply Forall_singleton|].
  apply Forall_cons in IH as [Hw Hws]. apply Forall_cons. split; [|done].
  cbn. by rewrite Hc, Hw.
Qed.

Lemma all_chars_str_join P ws :
  P " "%char = true →
  Forall (λ w, all_chars P w = true) ws →
  all_chars P (str_join " " ws) = true.
Proof.
  intros Hsp. induction 1 as [|w ws Hw Hws IH]; [done|].
  destruct ws as [|w' ws']; [done|].
  change (str_join " " (w :: w' :: ws'))
    with (w +:+ " " +:+ str_join " " (w' :: ws')).
  rewrite !all_chars_app, Hw, IH. cbn. by rewrite Hsp.
Qed.

(** *** stripping twice *)

Lemma rstrip_head c r :
  PyStr.is_space c = false →
  PyStr.rstrip (String c r) = String c (PyStr.rstrip r).
Proof. intros Hc. cbn. destruct (PyStr.rstrip r); [by rewrite Hc|done]. Qed.

Lemma rstrip_rstrip s : PyStr.rstrip (PyStr.rstrip s) = PyStr.rstrip s.
Proof.
  induction s as [|c r IH]; [done|]. cbn.
  destruct (PyStr.rstrip r) as [|c' r'] eqn:E.
  - destruct (PyStr.is_space c) eqn:Hc; [done|]. cbn. by rewrite Hc.
  - change (PyStr.rstrip (String c (String c' r')))
      with (match PyStr.rstrip (String c' r') with
            | EmptyString =>
                if PyStr.is_space c then EmptyString else String c EmptyString
            | r0 => String c r0
            end).
    by rewrite IH.
Qed.

Lemma lstrip_head s :
  PyStr.lstrip s = ""
  ∨ ∃ c r, PyStr.lstrip s = String c r ∧ PyStr.is_space c = false.
Proof.
  induction s as [|c r IH]; cbn; [by left|].
  destruct (PyStr.is_space c) eqn:Hc; [done|]. right. eauto.
Qed.

Lemma strip_strip s : PyStr.strip (PyStr.strip s) = PyStr.strip s.
Proof.
  unfold PyStr.strip.
  destruct (lstrip_head s) as [->|(c & r & -> & Hc)]; [done|].
  rewrite (rstrip_head _ _ Hc). cbn [PyStr.lstrip]. rewrite Hc.
  rewrite (rstrip_head _ _ Hc). by rewrite rstrip_rstrip.
Qed.

(** X12. For every text, the result of [clean_text] contains no NUL
    character, its only whitespace characters are single blanks (tabs, line
    breaks and the other whitespace of the input are gone), and it has no
    whitespace at either end: stripping it again changes nothing. *)
Theorem clean_text_shape text :
  all_chars not_nul (clean_text text) = true
  ∧ all_chars space_is_blank (clean_text text) = true
  ∧ PyStr.strip (clean_text text) = clean_text text.
Proof.
  unfold clean_text. destruct (PyStr.truthy text); cbn [negb]; [|done].
  split_and!.
  - apply all_chars_strip, remove_nul_not_nul.
  - apply all_chars_strip, all_chars_remove_nul, all_chars_str_join; [done|].
    eapply Forall_impl; [apply str_split_words|].
    intros w [_ Hw]. eapply all_chars_mono; [|exact Hw].
    intros c Hc. unfold not_space, space_is_blank in *.
    by destruct (PyStr.is_space c).
  - apply strip_strip.
Qed.

(** *** text without NUL characters *)

Lemma rstrip_word w : all_chars not_space w = true → PyStr.rstrip w = w.
Proof.
  induction w as [|c r IH]; [done|]. cbn [all_chars].
  intros [Hc Hr]%andb_true_iff. unfold not_space in Hc.
  apply negb_true_iff in Hc. by rewrite (rstrip_head _ _ Hc), IH.
Qed.

Lemma rstrip_app s1 s2 :
  s2 ≠ "" → PyStr.rstrip s2 = s2 → PyStr.rstrip (s1 +:+ s2) = s1 +:+ s2.
Proof.
  intros Hne Hs2. induction s1 as [|c r IH]; [done|].
  change (String c r +:+ s2) with (String c (r +:+ s2)).
  change (PyStr.rstrip (String c (r +:+ s2)))
    with (match PyStr.rstrip (r +:+ s2) with
          | EmptyString =>
              if PyStr.is_space c then EmptyString else String c EmptyString
          | r0 => String c r0
          end).
  rewrite IH. destruct (r +:+ s2) eqn:E; [|done].
  by destruct r, s2.
Qed.

Lemma str_join_nonempty w ws : w ≠ "" → str_join " " (w :: ws) ≠ "".
Proof. destruct w; [done|]. by destruct ws. Qed.

Lemma rstrip_str_join ws :
  Forall is_word ws → PyStr.rstrip (str_join " " ws) = str_join " " ws.
Proof.
  induction 1 as [|w ws [Hne Hw] Hws IH]; [done|].
  destruct ws as [|w' ws']; [by apply rstrip_word|].
  change (str_join " " (w :: w' :: ws'))
    with (w +:+ " " +:+ str_join " " (w' :: ws')).
  apply Forall_cons in Hws as [[Hne' _] _].
  apply rstrip_app; [done|].
  apply (rstrip_app " "); [by apply str_join_nonempty|done].
Qed.

Lemma lstrip_str_join ws :
  Forall is_word ws → PyStr.lstrip (str_join " " ws) = str_join " " ws.
Proof.
  destruct 1 as [|w ws [Hne Hw] Hws]; [done|].
  destruct w as [|c r]; [done|]. cbn in Hw.
  apply andb_true_iff in Hw as [Hc _]. unfold not_space in Hc.
  apply negb_true_iff in Hc.
  assert (Hhead : ∀ t, PyStr.lstrip (String c t) = String c t).
  { intros t. cbn [PyStr.lstrip]. by rewrite Hc. }
  destruct ws as [|w' ws']; [apply Hhead|].
  change (str_join " " (String c r :: w' :: ws'))
    with (String c (r +:+ " " +:+ str_join " " (w' :: ws'))).
  apply Hhead.
Qed.

Lemma strip_str_join ws :
  Forall is_word ws → PyStr.strip (str_join " " ws) = str_join " " ws.
Proof.
  intros Hws. unfold PyStr.strip.
  by rewrite lstrip_str_join, rstrip_str_join.
Qed.

Lemma str_split_word w : is_word w → str_split w = [w].
Proof.
  intros [Hne Hw]. induction w as [|c r IH]; [done|]. cbn in Hw.
  apply andb_true_iff in Hw as [Hc Hr]. unfold not_space in Hc.
  apply negb_true_iff in Hc. cbn [str_split]. rewrite Hc.
  destruct r as [|c' r']; [done|].
  rewrite IH by done. cbn in Hr. apply andb_true_iff in Hr as [Hc' _].
  unfold not_space in Hc'. apply negb_true_iff in Hc'. by rewrite Hc'.
Qed.

Lemma str_split_word_app w t :
  is_word w → str_split (w +:+ String " " t) = w :: str_split t.
Proof.
  intros [Hne Hw]. induction w as [|c r IH]; [done|]. cbn in Hw.
  apply andb_true_iff in Hw as [Hc Hr]. unfold not_space in Hc.
  apply negb_true_iff in Hc.
  change (String c r +:+ String " " t) with (String c (r +:+ String " " t)).
  cbn [str_split]. rewrite Hc.
  destruct r as [|c' r'].
  - change ("" +:+ String " " t) with (String " " t).
    change (PyStr.is_space " ") with true. cbn iota.
    by change (str_split (String " " t)) with (str_split t).
  - change (String c' r' +:+ String " " t)
      with (String c' (r' +:+ String " " t)) in *.
    rewrite IH by done. cbn in Hr. apply andb_true_iff in Hr as [Hc' _].
    unfold not_space in Hc'. apply negb_true_iff in Hc'. by rewrite Hc'.
Qed.

Lemma str_split_str_join ws :
  Forall is_word ws → str_split (str_join " " ws) = ws.
Proof.
  induction 1 as [|w ws Hw Hws IH]; [done|].
  destruct ws as [|w' ws']; [by apply str_split_word|].
  change (str_join " " (w :: w' :: ws'))
    with (w +:+ String " " (str_join " " (w' :: ws'))).
  by rewrite str_split_word_app, IH.
Qed.

(** X13. For a text without NUL characters, [clean_text] returns the words
    of the text separated by one blank each, and cleaning a second time
    changes nothing. *)
Theorem clean_text_idempotent text :
  all_chars not_nul text = true →
  clean_text text = str_join " " (str_split text)
  ∧ clean_text (clean_text text) = clean_text text.
Proof.
  intros Hnul.
  assert (Hclean : ∀ ws, Forall is_word ws →
            Forall (λ w, all_chars not_nul w = true) ws →
            PyStr.strip (remove_nul (str_join " " ws)) = str_join " " ws).
  { intros ws Hws Hnn. rewrite remove_nul_id by (by apply all_chars_str_join).
    by apply strip_str_join. }
  pose proof (str_split_words text) as Hws.
  pose proof (all_chars_str_split not_nul text Hnul) as Hnn.
  assert (Hfirst : clean_text text = str_join " " (str_split text)).
  { unfold clean_text. destruct text; [done|]. cbn [PyStr.truthy negb].
    by apply Hclean. }
  split; [done|]. rewrite Hfirst. unfold clean_text.
  destruct (PyStr.truthy (str_join " " (str_split text))) eqn:E; cbn [negb].
  - rewrite str_split_str_join by done. by apply Hclean.
  - by destruct (str_join " " (str_split text)).
Qed.

Lemma clean_text_idempotent_witness :
  clean_text "  Paris   is the capital " = "Paris is the capital".
Proof.
  rewrite (proj1 (clean_text_idempotent "  Paris   is the capital "
                    ltac:(reflexivity))).
  reflexivity.
Defined.

(** With a NUL character between blanks the hypothesis is needed: the
    result keeps two blanks, which a second cleaning merges. *)
Example clean_text_nul_between_blanks :
  clean_text (String "a" (String " " (String NUL (String " " "b")))) = "a  b"
  ∧ clean_text "a  b" = "a b".
Proof. split; reflexivity. Qed.

(** ** voice_handler.py: [speak_text] *)

Lemma length_substring_le n s :
  (String.length (String.substring 0 n s) ≤ n)%nat.
Proof.
  revert s. induction n as [|n IH]; intros [|c r]; cbn; try lia.
  specialize (IH r). lia.
Qed.

Lemma length_append s1 s2 :
  String.length (s1 +:+ s2) = (String.length s1 + String.length s2)%nat.
Proof.
  induction s1 as [|c r IH]; [done|].
  change (String c r +:+ s2) with (String c (r +:+ s2)). cbn. by rewrite IH.
Qed.

Lemma tts_text_length text : (String.length (tts_text text) ≤ 503)%nat.
Proof.
  unfold tts_text. destruct (500 <? String.length text)%nat eqn:E.
  - rewrite length_append. pose proof (length_substring_le 500 text).
    change (String.length "...") with 3. lia.
  - apply Nat.ltb_ge in E. lia.
Qed.

(** X14. [speak_text] never raises.  A blank text reaches no engine.  Any
    other text reaches the engines only in its clipped form, the text
    itself when it has at most 500 characters and else its first 500
    characters followed by "...", so at most 503 characters.  Online, Google
    TTS is tried first, and when it fails the same clipped text goes to
    pyttsx3 after the error was reported; offline, only pyttsx3 is
    called. *)
Theorem speak_text_calls venv text use_online s :
  ∃ s' new,
    speak_text venv text use_online s = (Ok tt, s')
    ∧ voice_calls s' = (new ++ voice_calls s)%list
    ∧ Forall (λ c, spoken c = tts_text text
                   ∧ (String.length (spoken c) ≤ 503)%nat) new
    ∧ (PyStr.all_space text = true → s' = s)
    ∧ (PyStr.all_space text = false →
       new = if use_online
             then match gTTS_exn venv (voice_calls s) (tts_text text) with
                  | None => [call_gTTS (tts_text text) "en"]
                  | Some _ => [call_pyttsx3 (tts_text text);
                               call_gTTS (tts_text text) "en"]
                  end
             else [call_pyttsx3 (tts_text text)]).
Proof.
  pose proof (tts_text_length text) as Hlen.
  unfold speak_text. fold (tts_text text).
  destruct (PyStr.truthy (PyStr.strip text)) eqn:Hstrip.
  - assert (Hblank : PyStr.all_space text = false).
    { destruct (PyStr.all_space text) eqn:E; [|done].
      apply strip_falsy_iff in E. congruence. }
    assert (Htruthy : PyStr.truthy text = true).
    { destruct text; [done|done]. }
    rewrite Htruthy. cbn [negb orb]. destruct s as [w calls0].
    destruct use_online.
    + unfold speak_text_gtts, speak_text_pyttsx3, voice_extern. run.
      destruct (gTTS_exn venv calls0 (tts_text text)) as [e|] eqn:Hg; run.
      * destruct (pyttsx3_exn venv _ (tts_text text)); run;
          eexists _, [_; _]; (split_and!; [done|done| |congruence|done]);
          by repeat (apply Forall_cons; split; [split; [reflexivity|exact Hlen]|]).
      * eexists _, [_]. split_and!; [done|done| |congruence|done].
        by repeat (apply Forall_cons; split; [split; [reflexivity|exact Hlen]|]).
    + unfold speak_text_pyttsx3, voice_extern. run.
      destruct (pyttsx3_exn venv calls0 (tts_text text)); run;
        eexists _, [_]; (split_and!; [done|done| |congruence|done]);
        by repeat (apply Forall_cons; split; [split; [reflexivity|exact Hlen]|]).
  - apply strip_falsy_iff in Hstrip. rewrite orb_true_r.
    exists s, []. split_and!; [done|done|constructor|done|congruence].
Qed.

(** Without network the answer is spoken by pyttsx3 after Google TTS was
    tried. *)
Lemma speak_text_calls_witness :
  ∃ s', speak_text offline_voice_env "Paris." true
          (mkVoiceState empty_world []) = (Ok tt, s')
      ∧ voice_calls s' = [call_pyttsx3 "Paris."; call_gTTS "Paris." "en"].
Proof.
  destruct (speak_text_calls offline_voice_env "Paris." true
              (mkVoiceState empty_world []))
    as (s' & new & Hrun & Hcalls & _ & _ & Hnew).
  exists s'. split; [exact Hrun|].
  rewrite Hcalls, Hnew by reflexivity. reflexivity.
Defined.
